(** * cartographer_ros: the MapBuilderBridge

    A shallow embedding of [cartographer_ros/map_builder_bridge.cc].

    The bridge owns a cartographer [MapBuilder] (the SLAM engine), the id of
    the trajectory that currently receives sensor data and the [SensorBridge]
    bound to that trajectory's builder.  The engine is a library outside the
    repository: it is modelled as an interface ([MapBuilder], a type class
    over an abstract engine state) and the bridge is verified against every
    implementation of it.  A small reference engine ([RefEngine]) instantiates
    the interface for concrete runs.

    Member functions are written in a state monad over the bridge object that
    also records, in program order, every engine call, every collaborator
    call, every glog line and every store to the session members, each with
    the bridge state right after it. *)

From stdpp Require Import base numbers list strings gmap.
From Stdlib.Strings Require Import Byte.

Local Open Scope Z_scope.

(** glog severities. *)
Inductive LogSeverity := INFO | WARNING | ERROR | FATAL.

#[global] Instance LogSeverity_eq_dec : EqDecision LogSeverity.
Proof. solve_decision. Defined.

(** [cartographer::mapping::Submap]: the bridge reads one member only. *)
Record Submap := { end_laser_fan_index : Z }.

(** [cartographer_ros_msgs::SubmapQuery::Request]. *)
Record SubmapQueryRequest := {
  request_trajectory_id : Z;
  request_submap_index : Z
}.

(** [cartographer_ros_msgs::FinishTrajectory::Request]; its response message
    has no members. *)
Record FinishTrajectoryRequest := { stem : string }.

(** [SensorBridge]: constructed from [&tf_bridge_] (always the bridge's own
    member) and a pointer to a trajectory builder of the engine; the pointer
    is modelled by the id of the trajectory it builds. *)
Record SensorBridge := { trajectory_builder : Z }.

#[global] Instance SensorBridge_eq_dec : EqDecision SensorBridge.
Proof. solve_decision. Defined.

(** Types and functions the bridge takes from other translation units.
    The geometry and message types cross the bridge unchanged; [Real] stands
    for C++ [double].  [ToGeometryMsgPose] (msg_conversion.h), [map_frame] of
    [NodeOptions] (node_options.h) and [cartographer_ros::BuildOccupancyGrid]
    (occupancy_grid.h), which fills the grid it is handed, belong to the
    repository but live in other files; [OccupancyGrid_default] is a
    default-constructed [nav_msgs::OccupancyGrid]. *)
Class BridgeEnv := {
  Rigid3d : Type;
  Pose : Type;
  TrajectoryNode : Type;
  NodeOptions : Type;
  OccupancyGrid : Type;
  Real : Type;
  Time : Type;
  SensorData : Type;
  ToGeometryMsgPose : Rigid3d → Pose;
  map_frame : NodeOptions → string;
  occupancy_grid_BuildOccupancyGrid :
    list TrajectoryNode → NodeOptions → OccupancyGrid → OccupancyGrid;
  OccupancyGrid_default : OccupancyGrid
}.

Section Bridge.

Context `{BridgeEnv}.

(** [cartographer::mapping::proto::SubmapQuery::Response]; [slice_pose] is
    stored already decoded ([transform::ToRigid3] applied). *)
Record SubmapQueryResponseProto := {
  proto_submap_version : Z;
  proto_cells : list byte;
  proto_width : Z;
  proto_height : Z;
  proto_resolution : Real;
  proto_slice_pose : Rigid3d
}.

(** [cartographer_ros_msgs::SubmapQuery::Response]. *)
Record SubmapQueryResponse := {
  submap_version : Z;
  cells : list byte;
  width : Z;
  height : Z;
  resolution : Real;
  slice_pose : Pose
}.

(** [cartographer_ros_msgs::SubmapEntry], [TrajectorySubmapList] and
    [SubmapList]. *)
Record SubmapEntry := {
  entry_submap_version : Z;
  entry_pose : Pose
}.

Record TrajectorySubmapList := { submap : list SubmapEntry }.

Record SubmapList := {
  header_stamp : Time;
  header_frame_id : string;
  trajectory : list TrajectorySubmapList
}.

(** ** The engine interface

    The operations of [cartographer::mapping::MapBuilder] and of its
    [sparse_pose_graph()] that the bridge calls.  Mutators return the new
    engine state; accessors read it.  [SubmapToProto] returns the error
    string together with the response proto it filled in. *)
Class MapBuilder (E : Type) := {
  AddTrajectoryBuilder : gset string → E → Z * E;
  FinishTrajectory : Z → E → E;
  num_trajectory_builders : E → Z;
  SubmapToProto : Z → Z → E → string * SubmapQueryResponseProto;
  (** [GetTrajectoryBuilder(id)->submaps()] *)
  submaps : Z → E → list Submap;
  (** [sparse_pose_graph()->RunFinalOptimization()] *)
  RunFinalOptimization : E → E;
  (** [sparse_pose_graph()->GetTrajectoryNodes()] *)
  GetTrajectoryNodes : E → list TrajectoryNode;
  (** [sparse_pose_graph()->GetSubmapTransforms] applied to a trajectory's
      submaps object, which is named by the trajectory that owns it *)
  GetSubmapTransforms : Z → E → list Rigid3d;
  (** Modelled from the spec: [IngestSample(handle, sample)], what a
      [SensorBridge] (sensor_bridge.cc) does to the engine through the
      trajectory builder it holds.  No member function of the bridge calls
      it; it runs between their calls. *)
  IngestSample : Z → SensorData → E → E
}.

Context {E : Type} `{!MapBuilder E}.

(** ** The bridge object *)
Record MapBuilderBridge := {
  options_ : NodeOptions;
  map_builder_ : E;
  expected_sensor_ids_ : gset string;
  trajectory_id_ : Z;
  (** [std::unique_ptr<SensorBridge>]: [None] is the null pointer *)
  sensor_bridge_ : option SensorBridge
}.

Definition set_map_builder (e : E) (b : MapBuilderBridge) : MapBuilderBridge :=
  {| options_ := options_ b; map_builder_ := e;
     expected_sensor_ids_ := expected_sensor_ids_ b;
     trajectory_id_ := trajectory_id_ b;
     sensor_bridge_ := sensor_bridge_ b |}.

Definition set_trajectory_id (id : Z) (b : MapBuilderBridge) : MapBuilderBridge :=
  {| options_ := options_ b; map_builder_ := map_builder_ b;
     expected_sensor_ids_ := expected_sensor_ids_ b;
     trajectory_id_ := id;
     sensor_bridge_ := sensor_bridge_ b |}.

Definition set_sensor_bridge (sb : option SensorBridge) (b : MapBuilderBridge)
  : MapBuilderBridge :=
  {| options_ := options_ b; map_builder_ := map_builder_ b;
     expected_sensor_ids_ := expected_sensor_ids_ b;
     trajectory_id_ := trajectory_id_ b;
     sensor_bridge_ := sb |}.

(** ** Observable events *)
Inductive Event :=
| CallAddTrajectoryBuilder (ids : gset string) (ret : Z)
| CallGetTrajectoryBuilder (id : Z)
| CallFinishTrajectory (id : Z)
| CallNumTrajectoryBuilders
| CallSubmapToProto (trajectory_id submap_index : Z)
| CallRunFinalOptimization
| CallGetTrajectoryNodes
| CallGetSubmapTransforms (id : Z)
| CallWriteAssets (nodes : list TrajectoryNode) (options : NodeOptions) (stem : string)
| CallBuildOccupancyGrid (nodes : list TrajectoryNode) (options : NodeOptions)
| Log (severity : LogSeverity) (message : string)
| StoreTrajectoryId (id : Z)
| StoreSensorBridge (sb : SensorBridge).

(** An observation point: an event and the bridge right after it. *)
Record Obs := { obs_event : Event; obs_after : MapBuilderBridge }.

Record Run := { this : MapBuilderBridge; trace : list Obs }.

(** How a member function ends: it returns, glog aborts the process on a
    failed [CHECK], or the model is stuck (loop fuel exhausted or an index
    out of range; shown unreachable below). *)
Inductive Outcome (A : Type) :=
| Returns (a : A) (r : Run)
| Aborts (r : Run)
| Stuck.
Arguments Returns {A} a r.
Arguments Aborts {A} r.
Arguments Stuck {A}.

Definition M (A : Type) : Type := Run → Outcome A.

#[global] Instance M_ret : MRet M := λ A a r, Returns a r.

#[global] Instance M_bind : MBind M := λ A B f m r,
  match m r with
  | Returns a r' => f a r'
  | Aborts r' => Aborts r'
  | Stuck => Stuck
  end.

(** Record an event after replacing the bridge by [b']. *)
Definition step (ev : Event) (b' : MapBuilderBridge) : M unit :=
  fun r => Returns tt {| this := b'; trace := trace r ++ [{| obs_event := ev; obs_after := b' |}] |}.

Definition emit (ev : Event) : M unit := fun r => step ev (this r) r.

Definition get {A} (f : MapBuilderBridge → A) : M A := fun r => Returns (f (this r)) r.

Definition LOG (severity : LogSeverity) (message : string) : M unit :=
  emit (Log severity message).

(** [CHECK_EQ(a, b)]: a failed check logs at [FATAL] and aborts. *)
Definition CHECK_EQ (a b : nat) : M unit :=
  fun r => if decide (a = b) then Returns tt r
           else match emit (Log FATAL "Check failed") r with
                | Returns _ r' => Aborts r'
                | o => o
                end.

Definition stuck {A} : M A := fun _ => Stuck.

(** *** Engine calls *)
Definition call_AddTrajectoryBuilder (ids : gset string) : M Z :=
  fun r => let '(id, e') := AddTrajectoryBuilder ids (map_builder_ (this r)) in
           (step (CallAddTrajectoryBuilder ids id) (set_map_builder e' (this r));; mret id) r.

Definition call_GetTrajectoryBuilder (id : Z) : M Z :=
  emit (CallGetTrajectoryBuilder id);; mret id.

Definition call_FinishTrajectory (id : Z) : M unit :=
  fun r => step (CallFinishTrajectory id)
                (set_map_builder (FinishTrajectory id (map_builder_ (this r))) (this r)) r.

Definition call_RunFinalOptimization : M unit :=
  fun r => step CallRunFinalOptimization
                (set_map_builder (RunFinalOptimization (map_builder_ (this r))) (this r)) r.

Definition call_num_trajectory_builders : M Z :=
  emit CallNumTrajectoryBuilders;; get (fun b => num_trajectory_builders (map_builder_ b)).

Definition call_SubmapToProto (trajectory_id submap_index : Z)
  : M (string * SubmapQueryResponseProto) :=
  emit (CallSubmapToProto trajectory_id submap_index);;
  get (fun b => SubmapToProto trajectory_id submap_index (map_builder_ b)).

Definition call_GetTrajectoryNodes : M (list TrajectoryNode) :=
  emit CallGetTrajectoryNodes;; get (fun b => GetTrajectoryNodes (map_builder_ b)).

Definition call_submaps (id : Z) : M (list Submap) :=
  tb ← call_GetTrajectoryBuilder id;
  get (fun b => submaps tb (map_builder_ b)).

Definition call_GetSubmapTransforms (id : Z) : M (list Rigid3d) :=
  emit (CallGetSubmapTransforms id);; get (fun b => GetSubmapTransforms id (map_builder_ b)).

(** *** Stores to the session members *)
Definition store_trajectory_id (id : Z) : M unit :=
  fun r => step (StoreTrajectoryId id) (set_trajectory_id id (this r)) r.

Definition store_sensor_bridge (sb : SensorBridge) : M unit :=
  fun r => step (StoreSensorBridge sb) (set_sensor_bridge (Some sb) (this r)) r.

(** ** Member functions *)

(** The constructor: the member initialisers, then the body. *)
Definition MapBuilderBridge_ctor (options : NodeOptions)
    (expected_sensor_ids : gset string) (engine : E) : Outcome unit :=
  let '(id, e') := AddTrajectoryBuilder expected_sensor_ids engine in
  let b0 := {| options_ := options; map_builder_ := e';
               expected_sensor_ids_ := expected_sensor_ids;
               trajectory_id_ := id; sensor_bridge_ := None |} in
  (tb ← call_GetTrajectoryBuilder id;
   store_sensor_bridge {| trajectory_builder := tb |})
    {| this := b0;
       trace := [{| obs_event := CallAddTrajectoryBuilder expected_sensor_ids id;
                    obs_after := b0 |}] |}.

(** [~MapBuilderBridge]. *)
Definition MapBuilderBridge_dtor : M unit :=
  id ← get trajectory_id_;
  call_FinishTrajectory id.

Definition HandleSubmapQuery (request : SubmapQueryRequest)
    (response : SubmapQueryResponse) : M (bool * SubmapQueryResponse) :=
  '(error, response_proto) ←
    call_SubmapToProto (request_trajectory_id request) (request_submap_index request);
  if decide (error ≠ "") then
    LOG ERROR error;;
    mret (false, response)
  else
    mret (true,
         {| submap_version := proto_submap_version response_proto;
            cells := proto_cells response_proto ++ cells response;
            width := proto_width response_proto;
            height := proto_height response_proto;
            resolution := proto_resolution response_proto;
            slice_pose := ToGeometryMsgPose (proto_slice_pose response_proto) |}).

Definition HandleFinishTrajectory (request : FinishTrajectoryRequest) : M bool :=
  LOG INFO "Finishing trajectory...";;
  previous_trajectory_id ← get trajectory_id_;
  ids ← get expected_sensor_ids_;
  id ← call_AddTrajectoryBuilder ids;
  store_trajectory_id id;;
  id' ← get trajectory_id_;
  tb ← call_GetTrajectoryBuilder id';
  store_sensor_bridge {| trajectory_builder := tb |};;
  call_FinishTrajectory previous_trajectory_id;;
  call_RunFinalOptimization;;
  trajectory_nodes ← call_GetTrajectoryNodes;
  (match trajectory_nodes with
   | [] => LOG WARNING "No data collected and no assets will be written."
   | _ :: _ =>
       LOG INFO "Writing assets...";;
       options ← get options_;
       emit (CallWriteAssets trajectory_nodes options (stem request))
   end);;
  LOG INFO "New trajectory started.";;
  mret true.

(** The inner loop of [GetSubmapList]:
    [for (submap_index = 0; submap_index != submaps->size(); ++submap_index)].
    [submaps->Get] and [operator[]] out of range have no defined result. *)
Fixpoint submap_loop (fuel : nat) (submap_index : nat)
    (submaps : list Submap) (submap_transforms : list Rigid3d)
    (trajectory_submap_list : TrajectorySubmapList) : M TrajectorySubmapList :=
  if decide (submap_index ≠ length submaps) then
    match fuel with
    | O => stuck
    | S fuel' =>
        match submaps !! submap_index, submap_transforms !! submap_index with
        | Some s, Some t =>
            let submap_entry :=
              {| entry_submap_version := end_laser_fan_index s;
                 entry_pose := ToGeometryMsgPose t |} in
            submap_loop fuel' (S submap_index) submaps submap_transforms
              {| submap := submap trajectory_submap_list ++ [submap_entry] |}
        | _, _ => stuck
        end
    end
  else mret trajectory_submap_list.

Definition push_back_trajectory (t : TrajectorySubmapList) (l : SubmapList)
  : SubmapList :=
  {| header_stamp := header_stamp l; header_frame_id := header_frame_id l;
     trajectory := trajectory l ++ [t] |}.

(** The outer loop:
    [for (trajectory_id = 0; trajectory_id < num_trajectory_builders(); ++trajectory_id)]. *)
Fixpoint trajectory_loop (fuel : nat) (trajectory_id : Z)
    (submap_list : SubmapList) : M SubmapList :=
  n ← call_num_trajectory_builders;
  if decide (trajectory_id < n) then
    match fuel with
    | O => stuck
    | S fuel' =>
        submaps ← call_submaps trajectory_id;
        submap_transforms ← call_GetSubmapTransforms trajectory_id;
        CHECK_EQ (length submap_transforms) (length submaps);;
        trajectory_submap_list ←
          submap_loop (length submaps) 0 submaps submap_transforms {| submap := [] |};
        trajectory_loop fuel' (trajectory_id + 1)
          (push_back_trajectory trajectory_submap_list submap_list)
    end
  else mret submap_list.

(** [now] is the value [ros::Time::now()] returns. *)
Definition GetSubmapList (now : Time) : M SubmapList :=
  options ← get options_;
  fuel ← get (λ b, Z.to_nat (num_trajectory_builders (map_builder_ b)));
  trajectory_loop fuel 0
    {| header_stamp := now; header_frame_id := map_frame options; trajectory := [] |}.

Definition BuildOccupancyGrid : M (option OccupancyGrid) :=
  trajectory_nodes ← call_GetTrajectoryNodes;
  match trajectory_nodes with
  | _ :: _ =>
      options ← get options_;
      emit (CallBuildOccupancyGrid trajectory_nodes options);;
      mret (Some (occupancy_grid_BuildOccupancyGrid trajectory_nodes options
                    OccupancyGrid_default))
  | [] => mret None
  end.

(** ** Vocabulary of the properties *)

(** The observations a call added to the trace, and their events. *)
Definition since (r r' : Run) : list Obs := drop (length (trace r)) (trace r').

Definition events (os : list Obs) : list Event := obs_event <$> os.

(** Events that change neither the engine nor the session members. *)
Definition read_only_event (ev : Event) : bool :=
  match ev with
  | CallGetTrajectoryBuilder _ | CallNumTrajectoryBuilders
  | CallSubmapToProto _ _ | CallGetTrajectoryNodes
  | CallGetSubmapTransforms _ | CallBuildOccupancyGrid _ _ | Log _ _ => true
  | CallAddTrajectoryBuilder _ _ | CallFinishTrajectory _
  | CallRunFinalOptimization | CallWriteAssets _ _ _
  | StoreTrajectoryId _ | StoreSensorBridge _ => false
  end.

Definition is_WriteAssets (ev : Event) : bool :=
  match ev with CallWriteAssets _ _ _ => true | _ => false end.

Definition exporter_invoked (evs : list Event) : bool := existsb is_WriteAssets evs.

(** The events of the export step of [HandleFinishTrajectory]. *)
Definition export_events (nodes : list TrajectoryNode) (options : NodeOptions)
    (stem : string) : list Event :=
  match nodes with
  | [] => [Log WARNING "No data collected and no assets will be written."]
  | _ :: _ => [Log INFO "Writing assets..."; CallWriteAssets nodes options stem]
  end.

(** The events of the handoff, up to the new [SensorBridge] being stored. *)
Definition handoff_events (ids : gset string) (new : Z) : list Event :=
  [Log INFO "Finishing trajectory...";
   CallAddTrajectoryBuilder ids new;
   StoreTrajectoryId new;
   CallGetTrajectoryBuilder new;
   StoreSensorBridge {| trajectory_builder := new |}].

Definition log_lines (evs : list Event) : list (LogSeverity * string) :=
  omap (λ ev, match ev with Log s m => Some (s, m) | _ => None end) evs.

(** The ids the outer loop of [GetSubmapList] visits. *)
Definition trajectory_ids (e : E) : list Z := seqZ 0 (num_trajectory_builders e).

(** The optimizer's transform array is as long as the submap list, for
    every trajectory. *)
Definition transforms_consistent (e : E) : bool :=
  forallb (λ id, bool_decide (length (GetSubmapTransforms id e) = length (submaps id e)))
          (trajectory_ids e).

(** The entry [GetSubmapList] builds for a submap and its transform. *)
Definition make_entry (s : Submap) (t : Rigid3d) : SubmapEntry :=
  {| entry_submap_version := end_laser_fan_index s;
     entry_pose := ToGeometryMsgPose t |}.

Definition expected_group (e : E) (id : Z) : TrajectorySubmapList :=
  {| submap := zip_with make_entry (submaps id e) (GetSubmapTransforms id e) |}.

Definition expected_submap_list (now : Time) (b : MapBuilderBridge) : SubmapList :=
  {| header_stamp := now;
     header_frame_id := map_frame (options_ b);
     trajectory := expected_group (map_builder_ b) <$> trajectory_ids (map_builder_ b) |}.

(** The bridge states [HandleFinishTrajectory] goes through. *)
Definition after_add (b : MapBuilderBridge) : MapBuilderBridge :=
  set_map_builder (AddTrajectoryBuilder (expected_sensor_ids_ b) (map_builder_ b)).2 b.
Definition new_id (b : MapBuilderBridge) : Z :=
  (AddTrajectoryBuilder (expected_sensor_ids_ b) (map_builder_ b)).1.
Definition after_store_id (b : MapBuilderBridge) : MapBuilderBridge :=
  set_trajectory_id (new_id b) (after_add b).
Definition after_store_bridge (b : MapBuilderBridge) : MapBuilderBridge :=
  set_sensor_bridge (Some {| trajectory_builder := new_id b |}) (after_store_id b).
Definition after_finish (b : MapBuilderBridge) : MapBuilderBridge :=
  set_map_builder
    (FinishTrajectory (trajectory_id_ b) (map_builder_ (after_add b)))
    (after_store_bridge b).
Definition after_optimize (b : MapBuilderBridge) : MapBuilderBridge :=
  set_map_builder (RunFinalOptimization (map_builder_ (after_finish b))) (after_finish b).

Definition finish_observations (request : FinishTrajectoryRequest)
    (b : MapBuilderBridge) : list Obs :=
  let b' := after_optimize b in
  [ {| obs_event := Log INFO "Finishing trajectory..."; obs_after := b |};
    {| obs_event := CallAddTrajectoryBuilder (expected_sensor_ids_ b) (new_id b);
       obs_after := after_add b |};
    {| obs_event := StoreTrajectoryId (new_id b); obs_after := after_store_id b |};
    {| obs_event := CallGetTrajectoryBuilder (new_id b); obs_after := after_store_id b |};
    {| obs_event := StoreSensorBridge {| trajectory_builder := new_id b |};
       obs_after := after_store_bridge b |};
    {| obs_event := CallFinishTrajectory (trajectory_id_ b); obs_after := after_finish b |};
    {| obs_event := CallRunFinalOptimization; obs_after := b' |};
    {| obs_event := CallGetTrajectoryNodes; obs_after := b' |} ] ++
  ((λ ev, {| obs_event := ev; obs_after := b' |}) <$>
     export_events (GetTrajectoryNodes (map_builder_ b')) (options_ b') (stem request)) ++
  [ {| obs_event := Log INFO "New trajectory started."; obs_after := b' |} ].

(** *** The engine contract

    [accepts_input e id]: trajectory [id] has been added to [e] and not
    finished.  The laws are cartographer's: ids are issued densely from 0,
    finishing stops one trajectory and removes none. *)
Class MapBuilderContract (accepts_input : E → Z → bool) : Prop := {
  add_returns_count ids e :
    (AddTrajectoryBuilder ids e).1 = num_trajectory_builders e;
  add_count ids e :
    num_trajectory_builders (AddTrajectoryBuilder ids e).2 = num_trajectory_builders e + 1;
  add_accepts ids e :
    accepts_input (AddTrajectoryBuilder ids e).2 (AddTrajectoryBuilder ids e).1 = true;
  add_others ids e j :
    j ≠ (AddTrajectoryBuilder ids e).1 →
    accepts_input (AddTrajectoryBuilder ids e).2 j = accepts_input e j;
  accepts_valid e j :
    accepts_input e j = true → 0 ≤ j < num_trajectory_builders e;
  finish_stops p e : accepts_input (FinishTrajectory p e) p = false;
  finish_others p e j :
    j ≠ p → accepts_input (FinishTrajectory p e) j = accepts_input e j;
  finish_count p e :
    num_trajectory_builders (FinishTrajectory p e) = num_trajectory_builders e;
  optimize_accepts e j :
    accepts_input (RunFinalOptimization e) j = accepts_input e j;
  optimize_count e :
    num_trajectory_builders (RunFinalOptimization e) = num_trajectory_builders e;
  ingest_accepts id d e j :
    accepts_input (IngestSample id d e) j = accepts_input e j;
  ingest_count id d e :
    num_trajectory_builders (IngestSample id d e) = num_trajectory_builders e
}.

Section Sessions.
Variable accepts_input : E → Z → bool.

(** The sessions the bridge holds that can take sensor data: its
    [SensorBridge], when the trajectory it feeds is still open. *)
Definition active_sessions (b : MapBuilderBridge) : list SensorBridge :=
  filter (λ sb, accepts_input (map_builder_ b) (trajectory_builder sb) = true)
         (option_list (sensor_bridge_ b)).

(** The bridge's session is bound to [trajectory_id_], which is the only
    open trajectory of the engine. *)
Definition sole_session (b : MapBuilderBridge) : Prop :=
  sensor_bridge_ b = Some {| trajectory_builder := trajectory_id_ b |} ∧
  ∀ j, accepts_input (map_builder_ b) j = true ↔ j = trajectory_id_ b.
End Sessions.

(** The states a bridge built on engine [e0] can be in between two calls:
    the constructor's result, then any member function that returned, or a
    sample that the current [SensorBridge] passed to the engine. *)
Inductive reachable (e0 : E) : Run → Prop :=
| reach_ctor options ids r :
    MapBuilderBridge_ctor options ids e0 = Returns tt r → reachable e0 r
| reach_HandleSubmapQuery request response r o r' :
    reachable e0 r → HandleSubmapQuery request response r = Returns o r' →
    reachable e0 r'
| reach_HandleFinishTrajectory request r o r' :
    reachable e0 r → HandleFinishTrajectory request r = Returns o r' →
    reachable e0 r'
| reach_GetSubmapList now r o r' :
    reachable e0 r → GetSubmapList now r = Returns o r' → reachable e0 r'
| reach_BuildOccupancyGrid r o r' :
    reachable e0 r → BuildOccupancyGrid r = Returns o r' → reachable e0 r'
| reach_ingest r sb d :
    reachable e0 r → sensor_bridge_ (this r) = Some sb →
    reachable e0
      {| this := set_map_builder
                   (IngestSample (trajectory_builder sb) d (map_builder_ (this r)))
                   (this r);
         trace := trace r |}.

(** The handles [AddTrajectoryBuilder] returned, in the order of the calls. *)
Definition created_handles (evs : list Event) : list Z :=
  omap (λ ev, match ev with CallAddTrajectoryBuilder _ id => Some id | _ => None end) evs.

(** What a call that started in [r] may do when it only reads: it ends,
    the bridge object (engine included) is as before, and every event it
    added is a read or a log line observed on the unchanged bridge. *)
Definition reads_only {A} (r : Run) (o : Outcome A) : Prop :=
  match o with
  | Returns _ r' | Aborts r' =>
      this r' = this r ∧
      ∃ os, trace r' = trace r ++ os ∧
            Forall (λ ob, read_only_event (obs_event ob) = true ∧ obs_after ob = this r) os
  | Stuck => False
  end.

(** The run a call returned with ([d] when it did not return). *)
Definition run_of {A} (o : Outcome A) (d : Run) : Run :=
  match o with Returns _ r => r | _ => d end.

(** The handles [FinishTrajectory] was called on, in the order of the calls. *)
Definition finished_handles (evs : list Event) : list Z :=
  omap (λ ev, match ev with CallFinishTrajectory id => Some id | _ => None end) evs.

(** The engine calls one round of the outer loop of [GetSubmapList] makes:
    the loop test, then the trajectory's submaps and their transforms. *)
Definition visit_events (id : Z) : list Event :=
  [CallNumTrajectoryBuilders; CallGetTrajectoryBuilder id; CallGetSubmapTransforms id].

(** The [CHECK_EQ] of [GetSubmapList] passes for trajectory [id]. *)
Definition lengths_agree (e : E) (id : Z) : bool :=
  bool_decide (length (GetSubmapTransforms id e) = length (submaps id e)).

(** The value a call returned, if it returned. *)
Definition value_of {A} (o : Outcome A) : option A :=
  match o with Returns a _ => Some a | _ => None end.

End Bridge.

Arguments MapBuilderBridge {_} E.
Arguments Obs {_} E.
Arguments Run {_} E.
Arguments Outcome {_} E A.
Arguments M {_} E A.
Arguments Returns {_ _ _} a r.
Arguments Aborts {_ _ _} r.
Arguments Stuck {_ _ _}.
Arguments reachable {_ _ _} e0 r.
Arguments reads_only : simpl never.

(** ** A reference engine

    A small implementation of the engine interface that follows
    cartographer's [MapBuilder]: trajectory builders live in a vector that
    only grows, the pose graph holds the nodes of all trajectories. *)
Module RefEngine.

Record Node := { node_trajectory : Z; node_scan : Z }.

Record Trajectory := {
  finished : bool;
  trajectory_submaps : list Submap;
  (** what the optimizer hands out for these submaps *)
  optimized_transforms : list Z
}.

Record Engine := {
  trajectory_builders : list Trajectory;
  trajectory_nodes : list Node;
  final_optimizations : nat
}.

#[global] Instance env : BridgeEnv := {|
  Rigid3d := Z;
  Pose := Z;
  TrajectoryNode := Node;
  NodeOptions := string;
  OccupancyGrid := list Z;
  Real := Z;
  Time := Z;
  SensorData := Z;
  ToGeometryMsgPose := λ t, t + 1000;
  map_frame := λ o, o;
  occupancy_grid_BuildOccupancyGrid := λ nodes _ grid, (node_scan <$> nodes) ++ grid;
  OccupancyGrid_default := []
|}.

Definition lookup_trajectory (id : Z) (e : Engine) : option Trajectory :=
  if decide (0 ≤ id) then trajectory_builders e !! Z.to_nat id else None.

Definition finish (t : Trajectory) : Trajectory :=
  {| finished := true; trajectory_submaps := trajectory_submaps t;
     optimized_transforms := optimized_transforms t |}.

Definition empty_proto : SubmapQueryResponseProto :=
  {| proto_submap_version := 0; proto_cells := []; proto_width := 0;
     proto_height := 0; proto_resolution := 0 : Real; proto_slice_pose := 0 : Rigid3d |}.

Definition ref_SubmapToProto (trajectory_id submap_index : Z) (e : Engine)
  : string * SubmapQueryResponseProto :=
  match lookup_trajectory trajectory_id e with
  | None => ("Requested submap from an unknown trajectory.", empty_proto)
  | Some t =>
      match (if decide (0 ≤ submap_index)
             then trajectory_submaps t !! Z.to_nat submap_index else None) with
      | None => ("Requested submap is out of range.", empty_proto)
      | Some s =>
          ("", {| proto_submap_version := end_laser_fan_index s;
                  proto_cells := [x01; x02];
                  proto_width := 2; proto_height := 1;
                  proto_resolution := 5 : Real;
                  proto_slice_pose := submap_index : Rigid3d |})
      end
  end.

Definition accepts_input (e : Engine) (id : Z) : bool :=
  match lookup_trajectory id e with
  | Some t => negb (finished t)
  | None => false
  end.

(** A scan closes a submap of an open trajectory; a finished trajectory
    drops it. *)
Definition ingest (d : SensorData) (t : Trajectory) : Trajectory :=
  if finished t then t
  else {| finished := false;
          trajectory_submaps := trajectory_submaps t ++ [{| end_laser_fan_index := d |}];
          optimized_transforms := optimized_transforms t ++ [d * 10] |}.

#[global] Instance map_builder : MapBuilder Engine := {|
  AddTrajectoryBuilder := λ _ e,
    (Z.of_nat (length (trajectory_builders e)),
     {| trajectory_builders :=
          trajectory_builders e ++
          [{| finished := false; trajectory_submaps := []; optimized_transforms := [] |}];
        trajectory_nodes := trajectory_nodes e;
        final_optimizations := final_optimizations e |});
  FinishTrajectory := λ id e,
    {| trajectory_builders :=
         if decide (0 ≤ id) then alter finish (Z.to_nat id) (trajectory_builders e)
         else trajectory_builders e;
       trajectory_nodes := trajectory_nodes e;
       final_optimizations := final_optimizations e |};
  num_trajectory_builders := λ e, Z.of_nat (length (trajectory_builders e));
  SubmapToProto := ref_SubmapToProto;
  submaps := λ id e, default [] (trajectory_submaps <$> lookup_trajectory id e);
  RunFinalOptimization := λ e,
    {| trajectory_builders := trajectory_builders e;
       trajectory_nodes := trajectory_nodes e;
       final_optimizations := S (final_optimizations e) |};
  GetTrajectoryNodes := trajectory_nodes;
  GetSubmapTransforms := λ id e, default [] (optimized_transforms <$> lookup_trajectory id e);
  IngestSample := λ id d e,
    if decide (0 ≤ id) then
      {| trajectory_builders := alter (ingest d) (Z.to_nat id) (trajectory_builders e);
         trajectory_nodes :=
           trajectory_nodes e ++
           (if accepts_input e id then [{| node_trajectory := id; node_scan := d |}] else []);
         final_optimizations := final_optimizations e |}
    else e
|}.

(** A freshly constructed engine. *)
Definition fresh : Engine :=
  {| trajectory_builders := []; trajectory_nodes := []; final_optimizations := 0 |}.

(** Trajectory 0 finished with two submaps and one node; trajectory 1 open
    and still empty. *)
Definition two_trajectories : Engine :=
  {| trajectory_builders :=
       [ {| finished := true;
            trajectory_submaps := [ {| end_laser_fan_index := 40 |};
                                    {| end_laser_fan_index := 57 |} ];
            optimized_transforms := [7; 8] |};
         {| finished := false; trajectory_submaps := []; optimized_transforms := [] |} ];
     trajectory_nodes := [ {| node_trajectory := 0; node_scan := 3 |} ];
     final_optimizations := 1 |}.

(** As [two_trajectories], with an optimizer that lost a transform. *)
Definition corrupt : Engine :=
  {| trajectory_builders :=
       [ {| finished := true;
            trajectory_submaps := [ {| end_laser_fan_index := 40 |};
                                    {| end_laser_fan_index := 57 |} ];
            optimized_transforms := [7] |};
         {| finished := false; trajectory_submaps := []; optimized_transforms := [] |} ];
     trajectory_nodes := [ {| node_trajectory := 0; node_scan := 3 |} ];
     final_optimizations := 1 |}.

Definition request_map1 : FinishTrajectoryRequest := {| stem := "map1" |}.
Definition request_map2 : FinishTrajectoryRequest := {| stem := "map2" |}.

Definition bridge_on (e : Engine) (id : Z) : Run Engine :=
  {| this := {| options_ := "map" : NodeOptions; map_builder_ := e;
                expected_sensor_ids_ := {["scan"]};
                trajectory_id_ := id;
                sensor_bridge_ := Some {| trajectory_builder := id |} |};
     trace := [] |}.

(** The run of the spec's scenario: construct on a fresh engine, ingest a
    scan on trajectory 0, finish it under "map1"; then finish trajectory 1,
    which got no data, under "map2". *)
Definition started : Run Engine :=
  run_of (MapBuilderBridge_ctor ("map" : NodeOptions) {["scan"]} fresh) (bridge_on fresh 0).

Definition scanned : Run Engine :=
  {| this := set_map_builder (IngestSample 0 (42 : SensorData) (map_builder_ (this started)))
                             (this started);
     trace := trace started |}.

Definition finished_once : Run Engine :=
  run_of (HandleFinishTrajectory request_map1 scanned) scanned.

Definition finished_twice : Run Engine :=
  run_of (HandleFinishTrajectory request_map2 finished_once) finished_once.

(** The nodes of the pose graph that belong to one trajectory. *)
Definition nodes_of (id : Z) (e : Engine) : list Node :=
  filter (λ n, node_trajectory n = id) (trajectory_nodes e).

Definition list_time : Time := 5.

(** Submap 0 of trajectory 0, and the index after the last. *)
Definition query_first : SubmapQueryRequest :=
  {| request_trajectory_id := 0; request_submap_index := 0 |}.
Definition query_beyond : SubmapQueryRequest :=
  {| request_trajectory_id := 0; request_submap_index := 1 |}.

Definition blank_response : SubmapQueryResponse :=
  {| submap_version := 0; cells := []; width := 0; height := 0;
     resolution := 0 : Real; slice_pose := 0 : Pose |}.

(** The run after listing the submaps once the first trajectory is finished. *)
Definition listed_once : Run Engine :=
  run_of (GetSubmapList list_time finished_once) finished_once.

End RefEngine.

(** * Properties *)

Section BridgeProperties.

Context `{BridgeEnv} {E : Type} `{!MapBuilder E}.

Implicit Types (r : Run E) (b : MapBuilderBridge E) (e : E).

Local Ltac run_monad :=
  unfold mbind, mret, M_bind, M_ret, LOG, emit, step, get,
    call_AddTrajectoryBuilder, call_GetTrajectoryBuilder, call_FinishTrajectory,
    call_RunFinalOptimization, call_num_trajectory_builders, call_SubmapToProto,
    call_GetTrajectoryNodes, call_submaps, call_GetSubmapTransforms,
    store_trajectory_id, store_sensor_bridge, stuck in *; simpl in *.

Lemma since_app r b os : since r {| this := b; trace := trace r ++ os |} = os.
Proof. unfold since. simpl. by rewrite drop_app_length. Qed.

Lemma HandleFinishTrajectory_run request r :
  HandleFinishTrajectory request r =
  Returns true {| this := after_optimize (this r);
                  trace := trace r ++ finish_observations request (this r) |}.
Proof.
  unfold HandleFinishTrajectory, finish_observations, after_optimize, after_finish,
    after_store_bridge, after_store_id, after_add, new_id.
  run_monad.
  destruct (AddTrajectoryBuilder _ _) as [id e'] eqn:Hadd. simpl.
  destruct (GetTrajectoryNodes _) as [|n ns] eqn:Hn; run_monad;
    rewrite <- ?app_assoc; simpl; reflexivity.
Qed.

(** C10: [HandleFinishTrajectory] returns [true] for every request and
    every state of the bridge and the engine; it neither aborts nor returns
    [false], whether or not assets are written. *)
Theorem HandleFinishTrajectory_returns_true request r :
  ∃ r', HandleFinishTrajectory request r = Returns true r'.
Proof. eexists. apply HandleFinishTrajectory_run. Qed.

Lemma events_finish_observations request b :
  events (finish_observations request b) =
  handoff_events (expected_sensor_ids_ b) (new_id b) ++
  CallFinishTrajectory (trajectory_id_ b) ::
  [CallRunFinalOptimization; CallGetTrajectoryNodes] ++
  export_events (GetTrajectoryNodes (map_builder_ (after_optimize b)))
                (options_ b) (stem request) ++
  [Log INFO "New trajectory started."].
Proof.
  unfold events, finish_observations, handoff_events. simpl.
  rewrite fmap_app, <- list_fmap_compose. simpl.
  do 8 f_equal. by rewrite list_fmap_id.
Qed.

Lemma exporter_invoked_finish request b :
  exporter_invoked (events (finish_observations request b)) =
  bool_decide (GetTrajectoryNodes (map_builder_ (after_optimize b)) ≠ []).
Proof.
  rewrite events_finish_observations.
  unfold exporter_invoked, handoff_events, export_events. simpl.
  destruct (GetTrajectoryNodes _); simpl;
    by rewrite ?bool_decide_eq_true, ?bool_decide_eq_false.
Qed.


Lemma submap_loop_run fuel : ∀ i (ss : list Submap) (ts : list Rigid3d) acc r,
  length ts = length ss → (length ss ≤ i + fuel)%nat → (i ≤ length ss)%nat →
  submap_loop fuel i ss ts acc r =
  Returns {| submap := submap acc ++ zip_with make_entry (drop i ss) (drop i ts) |} r.
Proof.
  assert (∀ i (ss : list Submap) (ts : list Rigid3d) acc r,
            length ts = length ss → i = length ss →
            mret (M := M E) acc r =
            Returns {| submap := submap acc ++ zip_with make_entry (drop i ss) (drop i ts) |} r)
    as Hdone.
  { intros i ss ts [acc] r Hlen ->. rewrite drop_all. simpl.
    by rewrite app_nil_r. }
  induction fuel as [|fuel IH]; intros i ss ts acc r Hlen Hfuel Hi; simpl.
  - destruct (decide (i ≠ length ss)) as [Hne|Heq%dec_stable]; [lia|]. by apply Hdone.
  - destruct (decide (i ≠ length ss)) as [Hne|Heq%dec_stable]; [|by apply Hdone].
    destruct (lookup_lt_is_Some_2 ss i) as [s Hs]; [lia|].
    destruct (lookup_lt_is_Some_2 ts i) as [t Ht]; [lia|].
    rewrite Hs, Ht. rewrite IH by (simpl; lia). simpl.
    rewrite (drop_S _ _ _ Hs), (drop_S _ _ _ Ht). simpl.
    by rewrite <- app_assoc.
Qed.

Lemma reads_only_extend {A} r os (o : Outcome E A) :
  Forall (λ ob, read_only_event (obs_event ob) = true ∧ obs_after ob = this r) os →
  reads_only {| this := this r; trace := trace r ++ os |} o →
  reads_only r o.
Proof.
  intros Hos. destruct o as [a r'|r'|]; unfold reads_only; simpl; [| |done].
  all: intros [Hthis (os' & Htrace & Hos')]; split; [done|].
  all: exists (os ++ os'); rewrite Htrace, app_assoc; split; [done|].
  all: by apply Forall_app.
Qed.

Lemma reads_only_here {A} r (a : A) : reads_only r (Returns a r).
Proof. unfold reads_only. split; [done|]. exists []. by rewrite app_nil_r. Qed.

Lemma trajectory_loop_run fuel : ∀ id acc r,
  num_trajectory_builders (map_builder_ (this r)) - id ≤ Z.of_nat fuel →
  let e := map_builder_ (this r) in
  let ids := seqZ id (num_trajectory_builders e - id) in
  let ok := forallb (λ id, bool_decide (length (GetSubmapTransforms id e) =
                                        length (submaps id e))) ids in
  reads_only r (trajectory_loop fuel id acc r) ∧
  match trajectory_loop fuel id acc r with
  | Returns l r' =>
      ok = true ∧
      l = {| header_stamp := header_stamp acc; header_frame_id := header_frame_id acc;
             trajectory := trajectory acc ++ (expected_group e <$> ids) |}
  | Aborts r' =>
      ok = false ∧ last (events (trace r')) = Some (Log FATAL "Check failed")
  | Stuck => False
  end.
Proof.
  induction fuel as [|fuel IH]; intros id acc r Hfuel; cbv zeta.
  - simpl. run_monad.
    destruct (decide (id < _)) as [Hlt|Hge]; [lia|].
    rewrite seqZ_nil by lia. simpl. split.
    + eapply (reads_only_extend r [_]); [|apply reads_only_here].
      by repeat constructor.
    + split; [done|]. destruct acc; simpl. by rewrite app_nil_r.
  - simpl. run_monad.
    destruct (decide (id < _)) as [Hlt|Hge].
    2:{ rewrite seqZ_nil by lia. simpl. split.
        + eapply (reads_only_extend r [_]); [|apply reads_only_here].
          by repeat constructor.
        + split; [done|]. destruct acc; simpl. by rewrite app_nil_r. }
    rewrite (seqZ_cons id) by lia. simpl.
    unfold CHECK_EQ. run_monad.
    destruct (decide (length _ = length _)) as [Hlen|Hlen].
    + rewrite submap_loop_run by (done || lia). simpl.
      rewrite bool_decide_eq_true_2 by done. simpl.
      rewrite <- !app_assoc. simpl.
      match goal with |- context [trajectory_loop fuel ?i ?a ?r1] =>
        specialize (IH i a r1) end.
      simpl in IH.
      replace (Z.pred (num_trajectory_builders (map_builder_ (this r)) - id))
        with (num_trajectory_builders (map_builder_ (this r)) - (id + 1)) by lia.
      replace (Z.succ id) with (id + 1) by lia.
      destruct IH as [Hro Hres]; [lia|].
      split.
      * eapply (reads_only_extend r [_; _; _]); [|exact Hro].
        by repeat constructor.
      * destruct (trajectory_loop _ _ _ _) as [l r'|r'|]; [| |done].
        -- destruct Hres as [Hok ->]. split; [done|]. simpl.
           unfold expected_group at 2. rewrite drop_0.
           by rewrite <- app_assoc.
        -- done.
    + rewrite bool_decide_eq_false_2 by done. simpl. split.
      * unfold reads_only. simpl. split; [done|]. eexists. rewrite <- !app_assoc. split; [done|].
        by repeat constructor.
      * split; [done|]. unfold events. rewrite fmap_app. simpl. by rewrite last_snoc.
Qed.

Lemma GetSubmapList_run now r :
  reads_only r (GetSubmapList now r) ∧
  match GetSubmapList now r with
  | Returns l r' =>
      transforms_consistent (map_builder_ (this r)) = true ∧
      l = expected_submap_list now (this r)
  | Aborts r' =>
      transforms_consistent (map_builder_ (this r)) = false ∧
      last (events (trace r')) = Some (Log FATAL "Check failed")
  | Stuck => False
  end.
Proof.
  unfold GetSubmapList, transforms_consistent, expected_submap_list, trajectory_ids.
  run_monad.
  pose proof (trajectory_loop_run
                (Z.to_nat (num_trajectory_builders (map_builder_ (this r)))) 0
                {| header_stamp := now; header_frame_id := map_frame (options_ (this r));
                   trajectory := [] |} r) as Hloop.
  cbv zeta in Hloop. rewrite Z.sub_0_r in Hloop. simpl in Hloop.
  apply Hloop. lia.
Qed.

Lemma transforms_consistent_spec e :
  transforms_consistent e = true ↔
  ∀ id, 0 ≤ id < num_trajectory_builders e →
        length (GetSubmapTransforms id e) = length (submaps id e).
Proof.
  unfold transforms_consistent, trajectory_ids. rewrite forallb_forall. split.
  - intros Hall id Hid. eapply bool_decide_eq_true_1, Hall.
    apply list_elem_of_In, elem_of_seqZ. lia.
  - intros Hall id Hin%list_elem_of_In%elem_of_seqZ.
    apply bool_decide_eq_true_2, Hall. lia.
Qed.

Lemma HandleSubmapQuery_reads_only request response r :
  reads_only r (HandleSubmapQuery request response r).
Proof.
  unfold HandleSubmapQuery. run_monad.
  destruct (SubmapToProto _ _ _) as [error proto].
  destruct (decide (error ≠ "")); unfold reads_only; simpl.
  - split; [done|]. eexists. rewrite <- app_assoc. split; [done|]. by repeat constructor.
  - split; [done|]. eexists. split; [done|]. by repeat constructor.
Qed.

Lemma BuildOccupancyGrid_reads_only r : reads_only r (BuildOccupancyGrid r).
Proof.
  unfold BuildOccupancyGrid. run_monad.
  destruct (GetTrajectoryNodes _); unfold reads_only; simpl.
  - split; [done|]. eexists. split; [done|]. by repeat constructor.
  - split; [done|]. eexists. rewrite <- app_assoc. split; [done|]. by repeat constructor.
Qed.

(** C2: [GetSubmapList] aborts on a failed [CHECK_EQ], with a [FATAL] log
    line and no list, as soon as one trajectory's transform array differs
    in length from its submaps; it returns a list exactly when the lengths
    agree for every trajectory. *)
Theorem GetSubmapList_aborts_on_mismatch now r :
  let e := map_builder_ (this r) in
  (∀ id, 0 ≤ id < num_trajectory_builders e →
         length (GetSubmapTransforms id e) ≠ length (submaps id e) →
         ∃ r', GetSubmapList now r = Aborts r' ∧
               last (events (trace r')) = Some (Log FATAL "Check failed")) ∧
  (∀ l r', GetSubmapList now r = Returns l r' →
           ∀ id, 0 ≤ id < num_trajectory_builders e →
                 length (GetSubmapTransforms id e) = length (submaps id e)) ∧
  ((∀ id, 0 ≤ id < num_trajectory_builders e →
          length (GetSubmapTransforms id e) = length (submaps id e)) →
   ∃ l r', GetSubmapList now r = Returns l r').
Proof.
  cbv zeta. destruct (GetSubmapList_run now r) as [_ Hrun].
  destruct (GetSubmapList now r) as [l r'|r'|]; [| |done].
  - destruct Hrun as [Hok _].
    pose proof (proj1 (transforms_consistent_spec _) Hok) as Hall. repeat split.
    + intros id Hid Hne. by specialize (Hall id Hid).
    + intros ? ? _. exact Hall.
    + eauto.
  - destruct Hrun as [Hbad Hlast]. repeat split.
    + eauto.
    + discriminate.
    + intros Hok. apply transforms_consistent_spec in Hok. congruence.
Qed.


(** C9: [HandleSubmapQuery], [GetSubmapList] and [BuildOccupancyGrid] end
    (returning, or for [GetSubmapList] possibly aborting) with
    [trajectory_id_], [sensor_bridge_], [expected_sensor_ids_] and the
    engine as they found them, and every event they cause is an engine
    accessor, the occupancy-grid builder or a log line: no
    [AddTrajectoryBuilder], [FinishTrajectory], [RunFinalOptimization],
    asset writing or store to a session member. *)
Theorem queries_read_only request response now r :
  let unchanged (r' : Run E) :=
    trajectory_id_ (this r') = trajectory_id_ (this r) ∧
    sensor_bridge_ (this r') = sensor_bridge_ (this r) ∧
    expected_sensor_ids_ (this r') = expected_sensor_ids_ (this r) ∧
    map_builder_ (this r') = map_builder_ (this r) ∧
    Forall (λ ev, read_only_event ev = true) (events (since r r')) in
  (∃ o r', HandleSubmapQuery request response r = Returns o r' ∧ unchanged r') ∧
  (∃ r', (GetSubmapList now r = Aborts r' ∨ ∃ l, GetSubmapList now r = Returns l r') ∧
         unchanged r') ∧
  (∃ o r', BuildOccupancyGrid r = Returns o r' ∧ unchanged r') ∧
  reads_only r (HandleSubmapQuery request response r) ∧
  reads_only r (GetSubmapList now r) ∧
  reads_only r (BuildOccupancyGrid r).
Proof.
  cbv zeta.
  pose proof (HandleSubmapQuery_reads_only request response r) as Hq.
  pose proof (proj1 (GetSubmapList_run now r)) as Hl.
  pose proof (BuildOccupancyGrid_reads_only r) as Hg.
  assert (∀ r', this r' = this r →
            (∃ os, trace r' = trace r ++ os ∧
                   Forall (λ ob, read_only_event (obs_event ob) = true ∧
                                 obs_after ob = this r) os) →
            trajectory_id_ (this r') = trajectory_id_ (this r) ∧
            sensor_bridge_ (this r') = sensor_bridge_ (this r) ∧
            expected_sensor_ids_ (this r') = expected_sensor_ids_ (this r) ∧
            map_builder_ (this r') = map_builder_ (this r) ∧
            Forall (λ ev, read_only_event ev = true) (events (since r r'))) as Hframe.
  { intros r' Hthis (os & Htrace & Hos). rewrite Hthis. repeat split.
    unfold since. rewrite Htrace, drop_app_length.
    apply Forall_fmap. eapply Forall_impl; [exact Hos|]. by intros ob [Hev _]. }
  repeat split; try assumption.
  - destruct (HandleSubmapQuery request response r) as [o r'|r'|] eqn:Hcall.
    + destruct Hq as [Hthis Hos]. exists o, r'. split; [done|]. by apply Hframe.
    + unfold HandleSubmapQuery in Hcall. run_monad.
      destruct (SubmapToProto _ _ _) as [error proto].
      by destruct (decide (error ≠ "")).
    + done.
  - destruct (GetSubmapList now r) as [l r'|r'|]; [| |done].
    + destruct Hl as [Hthis Hos]. exists r'. split; [eauto|]. by apply Hframe.
    + destruct Hl as [Hthis Hos]. exists r'. split; [eauto|]. by apply Hframe.
  - destruct (BuildOccupancyGrid r) as [o r'|r'|] eqn:Hcall.
    + destruct Hg as [Hthis Hos]. exists o, r'. split; [done|]. by apply Hframe.
    + unfold BuildOccupancyGrid in Hcall. run_monad.
      by destruct (GetTrajectoryNodes _).
    + done.
Qed.

(** C7: [BuildOccupancyGrid] reads the pose graph's nodes; with none it
    returns the null pointer, calls no builder and logs nothing; otherwise
    it returns the grid that [cartographer_ros::BuildOccupancyGrid] fills
    from all the nodes and the bridge's options. *)
Theorem BuildOccupancyGrid_result r :
  let nodes := GetTrajectoryNodes (map_builder_ (this r)) in
  ∃ r', this r' = this r ∧ log_lines (events (since r r')) = [] ∧
    (nodes = [] →
       BuildOccupancyGrid r = Returns None r' ∧
       events (since r r') = [CallGetTrajectoryNodes]) ∧
    (nodes ≠ [] →
       BuildOccupancyGrid r =
         Returns (Some (occupancy_grid_BuildOccupancyGrid nodes (options_ (this r))
                          OccupancyGrid_default)) r' ∧
       events (since r r') =
         [CallGetTrajectoryNodes; CallBuildOccupancyGrid nodes (options_ (this r))]).
Proof.
  cbv zeta. unfold BuildOccupancyGrid. run_monad.
  destruct (GetTrajectoryNodes _) as [|n ns].
  - exists {| this := this r;
              trace := trace r ++ [{| obs_event := CallGetTrajectoryNodes;
                                      obs_after := this r |}] |}.
    rewrite since_app. repeat split; done.
  - exists {| this := this r;
              trace := trace r ++
                [{| obs_event := CallGetTrajectoryNodes; obs_after := this r |};
                 {| obs_event := CallBuildOccupancyGrid (n :: ns) (options_ (this r));
                    obs_after := this r |}] |}.
    simpl. rewrite since_app, <- app_assoc. repeat split; done.
Qed.

(** C4: [HandleSubmapQuery] asks the engine once.  When the error string
    is empty it returns [true] with all six response fields set from the
    engine's proto (the cells put in front of what the response held, so
    equal to the proto's cells for a fresh response) and logs nothing.
    When the engine reports an error, whatever its kind, it logs that
    string at [ERROR] and returns [false] with the response as it was. *)
Theorem HandleSubmapQuery_result request response r :
  let res := SubmapToProto (request_trajectory_id request) (request_submap_index request)
                           (map_builder_ (this r)) in
  ∃ r', this r' = this r ∧
    (res.1 = "" →
       HandleSubmapQuery request response r =
         Returns (true,
                  {| submap_version := proto_submap_version res.2;
                     cells := proto_cells res.2 ++ cells response;
                     width := proto_width res.2;
                     height := proto_height res.2;
                     resolution := proto_resolution res.2;
                     slice_pose := ToGeometryMsgPose (proto_slice_pose res.2) |}) r' ∧
       events (since r r') =
         [CallSubmapToProto (request_trajectory_id request) (request_submap_index request)]) ∧
    (res.1 ≠ "" →
       HandleSubmapQuery request response r = Returns (false, response) r' ∧
       events (since r r') =
         [CallSubmapToProto (request_trajectory_id request) (request_submap_index request);
          Log ERROR res.1]).
Proof.
  cbv zeta. unfold HandleSubmapQuery. run_monad.
  destruct (SubmapToProto _ _ _) as [error proto]. simpl.
  destruct (decide (error ≠ "")) as [Hne|Heq%dec_stable]; simpl.
  - exists {| this := this r;
              trace := trace r ++
                [{| obs_event := CallSubmapToProto (request_trajectory_id request)
                                                   (request_submap_index request);
                    obs_after := this r |};
                 {| obs_event := Log ERROR error; obs_after := this r |}] |}.
    rewrite since_app, <- app_assoc. repeat split; done.
  - exists {| this := this r;
              trace := trace r ++
                [{| obs_event := CallSubmapToProto (request_trajectory_id request)
                                                   (request_submap_index request);
                    obs_after := this r |}] |}.
    rewrite since_app. repeat split; done.
Qed.

Section WithContract.

Context (accepts_input : E → Z → bool) `{!MapBuilderContract accepts_input}.

(** A handle the engine hands out was not valid before. *)
Lemma add_fresh ids e j :
  accepts_input e j = true → j ≠ (AddTrajectoryBuilder ids e).1.
Proof.
  intros Hj%accepts_valid. rewrite add_returns_count. lia.
Qed.

Lemma active_sessions_bound b sb :
  sensor_bridge_ b = Some sb →
  accepts_input (map_builder_ b) (trajectory_builder sb) = true →
  active_sessions accepts_input b = [sb].
Proof.
  intros Hsb Hacc. unfold active_sessions. rewrite Hsb. simpl.
  rewrite filter_cons_True, filter_nil; done.
Qed.

(** The old trajectory stays open until [FinishTrajectory]; the new one
    is open from [AddTrajectoryBuilder] on. *)
Lemma old_open_after_add b :
  accepts_input (map_builder_ b) (trajectory_id_ b) = true →
  accepts_input (map_builder_ (after_add b)) (trajectory_id_ b) = true.
Proof.
  intros Hacc. unfold after_add. simpl.
  rewrite add_others; [done|]. by apply add_fresh.
Qed.

Lemma new_open_after_finish b :
  accepts_input (map_builder_ b) (trajectory_id_ b) = true →
  accepts_input (map_builder_ (after_finish b)) (new_id b) = true.
Proof.
  intros Hacc. unfold after_finish, after_add, new_id. simpl.
  rewrite finish_others; [apply add_accepts|].
  intros Heq. by apply (add_fresh (expected_sensor_ids_ b)) in Hacc.
Qed.

Lemma sole_session_after_finish b :
  sole_session accepts_input b → sole_session accepts_input (after_optimize b).
Proof.
  intros [Hsb Hsole]. split; [done|].
  assert (accepts_input (map_builder_ b) (trajectory_id_ b) = true) as Hacc
    by by apply Hsole.
  intros j. unfold after_optimize. simpl.
  rewrite optimize_accepts.
  destruct (decide (j = trajectory_id_ b)) as [->|Hne].
  - rewrite finish_stops. split; [done|].
    intros Heq. by apply (add_fresh (expected_sensor_ids_ b)) in Hacc.
  - rewrite finish_others by done.
    destruct (decide (j = (AddTrajectoryBuilder (expected_sensor_ids_ b)
                             (map_builder_ b)).1)) as [->|Hne'].
    + by rewrite add_accepts.
    + rewrite add_others by done. rewrite Hsole. done.
Qed.

(** C1: in [HandleFinishTrajectory] the engine allocates the new
    trajectory and the bridge stores its id and a [SensorBridge] bound to
    it before [FinishTrajectory] is called on the old trajectory.  When
    the request arrives with the bridge's [SensorBridge] on an open
    trajectory, the bridge holds exactly one active session at every
    observation point of the call and when it returns; and when the
    bridge's trajectory was the only open one before, the new one is the
    only open one after. *)
Theorem handoff_keeps_one_session request r :
  sensor_bridge_ (this r) = Some {| trajectory_builder := trajectory_id_ (this r) |} →
  accepts_input (map_builder_ (this r)) (trajectory_id_ (this r)) = true →
  ∃ r' new rest,
    HandleFinishTrajectory request r = Returns true r' ∧
    events (since r r') =
      handoff_events (expected_sensor_ids_ (this r)) new ++
      CallFinishTrajectory (trajectory_id_ (this r)) :: rest ∧
    Forall (λ ev, ∀ ids id sb, ev ≠ CallAddTrajectoryBuilder ids id ∧
                               ev ≠ StoreSensorBridge sb ∧
                               ev ≠ CallFinishTrajectory id) rest ∧
    new ≠ trajectory_id_ (this r) ∧
    trajectory_id_ (this r') = new ∧
    sensor_bridge_ (this r') = Some {| trajectory_builder := new |} ∧
    length (active_sessions accepts_input (this r)) = 1%nat ∧
    Forall (λ ob, length (active_sessions accepts_input (obs_after ob)) = 1%nat)
           (since r r') ∧
    length (active_sessions accepts_input (this r')) = 1%nat ∧
    (sole_session accepts_input (this r) → sole_session accepts_input (this r')).
Proof.
  intros Hsb Hacc.
  eexists _, (new_id (this r)), _.
  split; [apply HandleFinishTrajectory_run|].
  rewrite since_app. simpl this.
  pose proof (old_open_after_add _ Hacc) as Hold.
  pose proof (new_open_after_finish _ Hacc) as Hnew.
  assert (accepts_input (map_builder_ (after_optimize (this r))) (new_id (this r)) = true)
    as Hopt by (unfold after_optimize; simpl; by rewrite optimize_accepts).
  assert (accepts_input (map_builder_ (after_add (this r))) (new_id (this r)) = true)
    as Hadd by apply add_accepts.
  split; [apply events_finish_observations|].
  split.
  { repeat apply Forall_cons_2; try (intros; repeat split; discriminate).
    apply Forall_app. split.
    - unfold export_events. destruct (GetTrajectoryNodes _);
        repeat apply Forall_cons_2; try apply Forall_nil_2;
        intros; repeat split; discriminate.
    - repeat apply Forall_cons_2; try apply Forall_nil_2;
        intros; repeat split; discriminate. }
  split.
  { intros Heq. apply (add_fresh (expected_sensor_ids_ (this r))) in Hacc.
    unfold new_id in Heq. congruence. }
  split; [done|]. split; [done|].
  split; [by erewrite active_sessions_bound|].
  split.
  { unfold finish_observations.
    repeat apply Forall_cons_2; simpl;
      try (by erewrite active_sessions_bound).
    apply Forall_app. split.
    - apply Forall_fmap, Forall_forall. intros ev _. simpl.
      by erewrite active_sessions_bound.
    - repeat constructor. simpl. by erewrite active_sessions_bound. }
  split; [by erewrite active_sessions_bound|].
  apply sole_session_after_finish.
Qed.

Lemma created_handles_app (os1 os2 : list (Obs E)) :
  created_handles (events (os1 ++ os2)) =
  created_handles (events os1) ++ created_handles (events os2).
Proof. unfold created_handles, events. by rewrite fmap_app, omap_app. Qed.

Lemma created_handles_read_only b (os : list (Obs E)) :
  Forall (λ ob, read_only_event (obs_event ob) = true ∧ obs_after ob = b) os →
  created_handles (events os) = [].
Proof.
  induction 1 as [|[ev b'] os [Hev _] _ IH]; [done|].
  simpl in *. by destruct ev.
Qed.

Lemma reads_only_returns {A} r (o : Outcome E A) a r' :
  reads_only r o → o = Returns a r' →
  this r' = this r ∧
  created_handles (events (trace r')) = created_handles (events (trace r)).
Proof.
  intros Hro ->. destruct Hro as [Hthis (os & -> & Hos)]. split; [done|].
  by rewrite created_handles_app, (created_handles_read_only _ _ Hos), app_nil_r.
Qed.

Lemma created_handles_finish request b :
  created_handles (events (finish_observations request b)) = [new_id b].
Proof.
  rewrite events_finish_observations. unfold handoff_events, export_events. simpl.
  by destruct (GetTrajectoryNodes _).
Qed.

(** Every state the bridge reaches from a new engine has its session on
    [trajectory_id_], the engine's only open trajectory, and the handles
    the engine issued are [0 .. num_trajectory_builders - 1] in order. *)
Lemma reachable_invariant e0 r :
  num_trajectory_builders e0 = 0 → reachable e0 r →
  sole_session accepts_input (this r) ∧
  created_handles (events (trace r)) = trajectory_ids (map_builder_ (this r)).
Proof.
  intros Hnew. induction 1 as
    [options ids r Hctor
    |request response r o r' _ IH Hcall
    |request r o r' _ IH Hcall
    |now r o r' _ IH Hcall
    |r o r' _ IH Hcall
    |r sb d _ IH Hsb].
  - unfold MapBuilderBridge_ctor in Hctor.
    pose proof (add_returns_count ids e0) as Hid.
    pose proof (add_count ids e0) as Hcount.
    pose proof (add_accepts ids e0) as Hacc.
    pose proof (add_others ids e0) as Hothers.
    destruct (AddTrajectoryBuilder ids e0) as [id e']. simpl in *.
    run_monad. injection Hctor as <-. simpl. subst id.
    split; [split; [done|]|].
    + simpl. intros j. destruct (decide (j = num_trajectory_builders e0)) as [->|Hne].
      * by rewrite Hacc.
      * rewrite Hothers by done. split; [|done].
        intros Hj%accepts_valid. lia.
    + unfold trajectory_ids. rewrite Hcount, Hnew. reflexivity.
  - destruct (reads_only_returns _ _ _ _ (HandleSubmapQuery_reads_only _ _ _) Hcall)
      as [-> ->]. exact IH.
  - rewrite HandleFinishTrajectory_run in Hcall. injection Hcall as _ <-.
    destruct IH as [Hsole Hhandles]. split; [by apply sole_session_after_finish|].
    simpl. rewrite created_handles_app, created_handles_finish, Hhandles.
    unfold trajectory_ids, after_optimize, after_finish, after_add, new_id. simpl.
    rewrite optimize_count, finish_count, add_count, add_returns_count.
    pose proof (accepts_valid (map_builder_ (this r)) (trajectory_id_ (this r))
                  (proj2 (proj2 Hsole _) eq_refl)).
    rewrite seqZ_app by lia. reflexivity.
  - destruct (reads_only_returns _ _ _ _ (proj1 (GetSubmapList_run _ _)) Hcall)
      as [-> ->]. exact IH.
  - destruct (reads_only_returns _ _ _ _ (BuildOccupancyGrid_reads_only _) Hcall)
      as [-> ->]. exact IH.
  - destruct IH as [[Hb Hsole] Hhandles]. split; [split; [done|]|].
    + intros j. simpl. rewrite ingest_accepts. apply Hsole.
    + simpl. unfold trajectory_ids. by rewrite ingest_count.
Qed.

(** C5: [GetSubmapList] returns one group per handle the engine ever
    issued, finished trajectories included, in the order the handles
    were issued; group [i] has one entry per submap of trajectory [i], as
    many as the trajectory has submaps, entry [j] being the one of submap
    [j]. *)
Theorem GetSubmapList_groups now e0 r :
  num_trajectory_builders e0 = 0 → reachable e0 r →
  let e := map_builder_ (this r) in
  transforms_consistent e = true →
  ∃ l r', GetSubmapList now r = Returns l r' ∧
    created_handles (events (trace r)) = seqZ 0 (num_trajectory_builders e) ∧
    trajectory l = expected_group e <$> created_handles (events (trace r)) ∧
    length (trajectory l) = length (created_handles (events (trace r))) ∧
    ∀ (i : nat) g, trajectory l !! i = Some g →
      length (submap g) = length (submaps (Z.of_nat i) e) ∧
      ∀ (j : nat) s, submaps (Z.of_nat i) e !! j = Some s →
        ∃ entry, submap g !! j = Some entry ∧
                 entry_submap_version entry = end_laser_fan_index s.
Proof.
  intros Hnew Hreach e Hok.
  destruct (reachable_invariant e0 r Hnew Hreach) as [_ Hhandles].
  pose proof (GetSubmapList_run now r) as [_ Hrun].
  destruct (GetSubmapList now r) as [l r'|r'|]; [| |done].
  2:{ destruct Hrun as [Hbad _]. subst e. congruence. }
  destruct Hrun as [_ Hl]. exists l, r'. split; [done|]. subst l.
  split; [exact Hhandles|]. simpl. fold e. rewrite Hhandles.
  split; [done|]. split; [by rewrite length_fmap|].
  intros i g Hg.
  apply list_lookup_fmap_Some in Hg as (id & -> & Hid).
  unfold trajectory_ids in Hid. apply lookup_seqZ in Hid as [-> Hi].
  rewrite Z.add_0_l. simpl.
  pose proof (proj1 (transforms_consistent_spec e) Hok (Z.of_nat i)) as Hlen.
  rewrite length_zip_with. split; [lia|].
  intros j s Hs.
  destruct (lookup_lt_is_Some_2 (GetSubmapTransforms (Z.of_nat i) e) j) as [t Ht].
  { rewrite Hlen by lia. by eapply lookup_lt_Some. }
  exists (make_entry s t). split; [|done].
  apply lookup_zip_with_Some. by exists s, t.
Qed.

(** C8: the destructor makes one engine call, [FinishTrajectory] on
    [trajectory_id_], in whatever state the bridge is.  In every state
    the bridge can reach from a new engine that is the trajectory its
    [SensorBridge] feeds, the one active session, and after the call the
    engine has no open trajectory left. *)
Theorem destructor_finishes_current e0 r :
  ∃ r', MapBuilderBridge_dtor r = Returns tt r' ∧
    events (since r r') = [CallFinishTrajectory (trajectory_id_ (this r))] ∧
    map_builder_ (this r') =
      FinishTrajectory (trajectory_id_ (this r)) (map_builder_ (this r)) ∧
    (num_trajectory_builders e0 = 0 → reachable e0 r →
       active_sessions accepts_input (this r) =
         [{| trajectory_builder := trajectory_id_ (this r) |}] ∧
       ∀ j, accepts_input (map_builder_ (this r')) j = false).
Proof.
  unfold MapBuilderBridge_dtor. run_monad. eexists. split; [reflexivity|].
  rewrite since_app. simpl. split; [done|]. split; [done|].
  intros Hnew Hreach.
  apply (reachable_invariant e0 r) in Hreach as [[Hsb Hsole] _]; [|done].
  split.
  - apply active_sessions_bound; [done|]. by apply Hsole.
  - intros j. destruct (decide (j = trajectory_id_ (this r))) as [->|Hne].
    + apply finish_stops.
    + rewrite finish_others by done. apply not_true_is_false. by rewrite Hsole.
Qed.

(** C3, as the code has it: [HandleFinishTrajectory] calls
    [FinishTrajectory] on the old trajectory, then [RunFinalOptimization],
    then reads the pose graph with [GetTrajectoryNodes], in that order, and
    calls the asset writer exactly when that read holds at least one node,
    whichever trajectory the nodes belong to, handing it all of them.  With
    no node it writes nothing, logs one [WARNING] between its two [INFO]
    lines and nothing more severe, and still returns [true].  In both cases
    the new trajectory becomes active: when the request arrives with the
    bridge's [SensorBridge] on its open current trajectory, the bridge ends
    with its [SensorBridge] on the new trajectory, which is open, and the old
    trajectory takes no more input. *)
Theorem HandleFinishTrajectory_exports_iff_nodes request r :
  ∃ r', HandleFinishTrajectory request r = Returns true r' ∧
    let old := trajectory_id_ (this r) in
    let new := (AddTrajectoryBuilder (expected_sensor_ids_ (this r))
                                     (map_builder_ (this r))).1 in
    let graph :=
      RunFinalOptimization
        (FinishTrajectory old
           (AddTrajectoryBuilder (expected_sensor_ids_ (this r))
                                 (map_builder_ (this r))).2) in
    let nodes := GetTrajectoryNodes graph in
    let evs := events (since r r') in
    map_builder_ (this r') = graph ∧
    evs = handoff_events (expected_sensor_ids_ (this r)) new ++
          [CallFinishTrajectory old; CallRunFinalOptimization; CallGetTrajectoryNodes] ++
          export_events nodes (options_ (this r)) (stem request) ++
          [Log INFO "New trajectory started."] ∧
    (exporter_invoked evs = true ↔ nodes ≠ []) ∧
    (nodes ≠ [] → CallWriteAssets nodes (options_ (this r)) (stem request) ∈ evs) ∧
    (nodes = [] →
       log_lines evs =
         [(INFO, "Finishing trajectory...");
          (WARNING, "No data collected and no assets will be written.");
          (INFO, "New trajectory started.")]) ∧
    trajectory_id_ (this r') = new ∧
    sensor_bridge_ (this r') = Some {| trajectory_builder := new |} ∧
    (sensor_bridge_ (this r) = Some {| trajectory_builder := old |} →
     accepts_input (map_builder_ (this r)) old = true →
     active_sessions accepts_input (this r') = [{| trajectory_builder := new |}] ∧
     accepts_input (map_builder_ (this r')) new = true ∧
     accepts_input (map_builder_ (this r')) old = false).
Proof.
  eexists. split; [apply HandleFinishTrajectory_run|].
  cbv zeta. rewrite since_app. simpl this.
  rewrite exporter_invoked_finish, events_finish_observations.
  change (map_builder_ (after_optimize (this r))) with
    (RunFinalOptimization
       (FinishTrajectory (trajectory_id_ (this r))
          (AddTrajectoryBuilder (expected_sensor_ids_ (this r))
                                (map_builder_ (this r))).2)).
  set (graph := RunFinalOptimization _).
  set (nodes := GetTrajectoryNodes graph).
  split; [reflexivity|]. split; [reflexivity|].
  split; [split; [intros Hb; by apply bool_decide_eq_true in Hb
                 |intros Hn; by apply bool_decide_eq_true]|].
  split.
  { intros Hn. destruct nodes as [|n ns]; [done|].
    unfold handoff_events, export_events. set_solver. }
  split; [intros Hn; rewrite Hn; reflexivity|].
  split; [reflexivity|]. split; [reflexivity|].
  intros Hsb Hacc.
  assert (accepts_input graph (new_id (this r)) = true) as Hnew.
  { subst graph. rewrite optimize_accepts. by apply new_open_after_finish. }
  split; [|split; [exact Hnew|]].
  - apply active_sessions_bound; [done|exact Hnew].
  - subst graph. rewrite optimize_accepts. apply finish_stops.
Qed.

End WithContract.

(** ** Further properties of the member functions *)

Lemma finished_handles_app (os1 os2 : list (Obs E)) :
  finished_handles (events (os1 ++ os2)) =
  finished_handles (events os1) ++ finished_handles (events os2).
Proof. unfold finished_handles, events. by rewrite fmap_app, omap_app. Qed.

Lemma finished_handles_read_only b (os : list (Obs E)) :
  Forall (λ ob, read_only_event (obs_event ob) = true ∧ obs_after ob = b) os →
  finished_handles (events os) = [].
Proof.
  induction 1 as [|[ev b'] os [Hev _] _ IH]; [done|].
  simpl in *. by destruct ev.
Qed.

Lemma finished_handles_finish request b :
  finished_handles (events (finish_observations request b)) = [trajectory_id_ b].
Proof.
  rewrite events_finish_observations. unfold handoff_events, export_events. simpl.
  by destruct (GetTrajectoryNodes _).
Qed.

Lemma ctor_run options ids e0 :
  MapBuilderBridge_ctor options ids e0 =
  let add := AddTrajectoryBuilder ids e0 in
  let b0 := {| options_ := options; map_builder_ := add.2; expected_sensor_ids_ := ids;
               trajectory_id_ := add.1; sensor_bridge_ := None |} in
  let b1 := set_sensor_bridge (Some {| trajectory_builder := add.1 |}) b0 in
  Returns tt
    {| this := b1;
       trace := [ {| obs_event := CallAddTrajectoryBuilder ids add.1; obs_after := b0 |};
                  {| obs_event := CallGetTrajectoryBuilder add.1; obs_after := b0 |};
                  {| obs_event := StoreSensorBridge {| trajectory_builder := add.1 |};
                     obs_after := b1 |} ] |}.
Proof.
  unfold MapBuilderBridge_ctor. destruct (AddTrajectoryBuilder ids e0) as [id e'].
  run_monad. reflexivity.
Qed.

(** What a read-only call that returned leaves of the lifecycle events. *)
Lemma reads_only_lifecycle {A} r (o : Outcome E A) a r' :
  reads_only r o → o = Returns a r' →
  this r' = this r ∧
  created_handles (events (trace r')) = created_handles (events (trace r)) ∧
  finished_handles (events (trace r')) = finished_handles (events (trace r)).
Proof.
  intros Hro ->. destruct Hro as [Hthis (os & -> & Hos)]. split; [done|].
  rewrite created_handles_app, finished_handles_app.
  by rewrite (created_handles_read_only _ _ Hos), (finished_handles_read_only _ _ Hos),
    !app_nil_r.
Qed.

Lemma reachable_lifecycle e0 r :
  reachable e0 r →
  sensor_bridge_ (this r) = Some {| trajectory_builder := trajectory_id_ (this r) |} ∧
  finished_handles (events (trace r)) ++ [trajectory_id_ (this r)] =
  created_handles (events (trace r)).
Proof.
  induction 1 as
    [options ids r Hctor
    |request response r o r' _ IH Hcall
    |request r o r' _ IH Hcall
    |now r o r' _ IH Hcall
    |r o r' _ IH Hcall
    |r sb d _ IH Hsb].
  - rewrite ctor_run in Hctor. cbv zeta in Hctor. injection Hctor as <-. done.
  - destruct (reads_only_lifecycle _ _ _ _ (HandleSubmapQuery_reads_only _ _ _) Hcall)
      as (-> & -> & ->). exact IH.
  - rewrite HandleFinishTrajectory_run in Hcall. injection Hcall as _ <-.
    destruct IH as [Hsb Hpair]. split; [done|]. simpl.
    rewrite created_handles_app, finished_handles_app, created_handles_finish,
      finished_handles_finish, <- Hpair.
    by rewrite <- app_assoc.
  - destruct (reads_only_lifecycle _ _ _ _ (proj1 (GetSubmapList_run _ _)) Hcall)
      as (-> & -> & ->). exact IH.
  - destruct (reads_only_lifecycle _ _ _ _ (BuildOccupancyGrid_reads_only _) Hcall)
      as (-> & -> & ->). exact IH.
  - exact IH.
Qed.

(** X3: over the life of a bridge, on any engine, the trajectories finished
    so far followed by the current one are the trajectories created, in the
    same order; the destructor finishes the current one, so that in the end
    every trajectory the bridge created has been finished exactly once, in
    creation order. *)
Theorem every_trajectory_finished_once e0 r :
  reachable e0 r →
  finished_handles (events (trace r)) ++ [trajectory_id_ (this r)] =
    created_handles (events (trace r)) ∧
  ∃ r', MapBuilderBridge_dtor r = Returns tt r' ∧
        finished_handles (events (trace r')) = created_handles (events (trace r')).
Proof.
  intros [_ Hpair]%reachable_lifecycle. split; [exact Hpair|].
  unfold MapBuilderBridge_dtor. run_monad. eexists. split; [reflexivity|]. simpl.
  by rewrite created_handles_app, finished_handles_app, app_nil_r.
Qed.

(** X4: the bridge never changes the sensor ids and options it was built
    with: every [AddTrajectoryBuilder] call it ever made passed the sensor
    ids it still holds, and every [WriteAssets] call the options it still
    holds. *)
Theorem construction_arguments_kept e0 r :
  reachable e0 r →
  (∀ ids id, CallAddTrajectoryBuilder ids id ∈ events (trace r) →
             ids = expected_sensor_ids_ (this r)) ∧
  (∀ nodes options stem, CallWriteAssets nodes options stem ∈ events (trace r) →
                         options = options_ (this r)).
Proof.
  assert (∀ (ra rb : Run E) (os : list (Obs E)) ev,
            trace rb = trace ra ++ os →
            Forall (λ ob, read_only_event (obs_event ob) = true ∧ obs_after ob = this ra) os →
            read_only_event ev = false →
            ev ∈ events (trace rb) → ev ∈ events (trace ra)) as Hold.
  { intros ra rb os ev -> Hos Hev. unfold events. rewrite fmap_app, elem_of_app.
    intros [Hin|Hin]; [done|].
    apply list_elem_of_fmap in Hin as (ob & -> & Hob).
    rewrite Forall_forall in Hos. destruct (Hos ob Hob) as [Hro _]. congruence. }
  assert (∀ A (ra : Run E) (o : Outcome E A) a rb,
            reads_only ra o → o = Returns a rb →
            ((∀ ids id, CallAddTrajectoryBuilder ids id ∈ events (trace ra) →
                        ids = expected_sensor_ids_ (this ra)) ∧
             (∀ nodes options stem, CallWriteAssets nodes options stem ∈ events (trace ra) →
                                    options = options_ (this ra))) →
            (∀ ids id, CallAddTrajectoryBuilder ids id ∈ events (trace rb) →
                       ids = expected_sensor_ids_ (this rb)) ∧
            (∀ nodes options stem, CallWriteAssets nodes options stem ∈ events (trace rb) →
                                   options = options_ (this rb))) as Hquery.
  { intros A ra o a rb Hro -> [IHa IHw]. destruct Hro as [Hthis (os & Htrace & Hos)].
    rewrite Hthis. split.
    - intros ids id Hin. apply IHa with id. by eapply Hold.
    - intros nodes options stem Hin. apply IHw with nodes stem. by eapply Hold. }
  induction 1 as
    [options ids r Hctor
    |request response r o r' _ IH Hcall
    |request r o r' _ IH Hcall
    |now r o r' _ IH Hcall
    |r o r' _ IH Hcall
    |r sb d _ IH Hsb].
  - rewrite ctor_run in Hctor. cbv zeta in Hctor. injection Hctor as <-. simpl.
    split; intros *; set_solver.
  - eapply Hquery; [apply HandleSubmapQuery_reads_only|exact Hcall|exact IH].
  - rewrite HandleFinishTrajectory_run in Hcall. injection Hcall as _ <-.
    destruct IH as [IHa IHw]. simpl. unfold events. rewrite fmap_app.
    fold (events (trace r)). fold (events (finish_observations request (this r))).
    rewrite events_finish_observations. unfold handoff_events, export_events.
    split.
    + intros ids id [Hin|Hin]%elem_of_app; [by eapply IHa|].
      destruct (GetTrajectoryNodes _); set_solver.
    + intros nodes options stem [Hin|Hin]%elem_of_app; [by eapply IHw|].
      destruct (GetTrajectoryNodes _); set_solver.
  - eapply Hquery; [apply (proj1 (GetSubmapList_run now r))|exact Hcall|exact IH].
  - eapply Hquery; [apply BuildOccupancyGrid_reads_only|exact Hcall|exact IH].
  - exact IH.
Qed.

Lemma trajectory_loop_calls fuel : ∀ id acc r,
  num_trajectory_builders (map_builder_ (this r)) - id ≤ Z.of_nat fuel →
  let e := map_builder_ (this r) in
  let ids := seqZ id (num_trajectory_builders e - id) in
  match trajectory_loop fuel id acc r with
  | Returns _ r' =>
      ∃ os, trace r' = trace r ++ os ∧
            events os = flat_map visit_events ids ++ [CallNumTrajectoryBuilders]
  | Aborts r' =>
      ∃ os good k rest,
        trace r' = trace r ++ os ∧ ids = good ++ k :: rest ∧
        forallb (lengths_agree e) good = true ∧ lengths_agree e k = false ∧
        events os = flat_map visit_events good ++ visit_events k ++
                    [Log FATAL "Check failed"]
  | Stuck => True
  end.
Proof.
  induction fuel as [|fuel IH]; intros id acc r Hfuel; cbv zeta.
  - simpl. run_monad.
    destruct (decide (id < _)) as [Hlt|Hge]; [lia|].
    rewrite seqZ_nil by lia. by eexists.
  - simpl. run_monad.
    destruct (decide (id < _)) as [Hlt|Hge].
    2:{ rewrite seqZ_nil by lia. by eexists. }
    rewrite (seqZ_cons id) by lia.
    unfold CHECK_EQ. run_monad.
    destruct (decide (length _ = length _)) as [Hlen|Hlen].
    + rewrite submap_loop_run by (done || lia). simpl.
      rewrite <- !app_assoc. simpl.
      match goal with |- context [trajectory_loop fuel ?i ?a ?r1] =>
        specialize (IH i a r1) end.
      simpl in IH.
      replace (Z.pred (num_trajectory_builders (map_builder_ (this r)) - id))
        with (num_trajectory_builders (map_builder_ (this r)) - (id + 1)) by lia.
      replace (Z.succ id) with (id + 1) by lia.
      specialize (IH ltac:(lia)).
      destruct (trajectory_loop _ _ _ _) as [l r'|r'|]; [| |done].
      * destruct IH as (os & -> & Hev). eexists. rewrite <- app_assoc.
        split; [reflexivity|]. rewrite <- Hev. reflexivity.
      * destruct IH as (os & good & k & rest & -> & Hids & Hgood & Hk & Hev).
        eexists _, (id :: good), k, rest. rewrite <- app_assoc.
        split; [reflexivity|]. rewrite Hids. split; [done|].
        split; [|split; [done|]].
        -- simpl. unfold lengths_agree at 1.
           by rewrite bool_decide_eq_true_2.
        -- transitivity (visit_events id ++ events os); [reflexivity|].
           rewrite Hev. reflexivity.
    + eexists _, [], id, _. rewrite <- !app_assoc. simpl.
      split; [reflexivity|]. split; [reflexivity|]. split; [done|].
      split; [by apply bool_decide_eq_false_2|done].
Qed.

(** X5: the engine calls of [GetSubmapList].  When it returns, it has
    tested the loop condition and read the submaps and the transforms once
    per trajectory, in id order, and tested the condition a last time.  When
    it aborts, it has done so for the trajectories before the first one
    whose lengths differ, read that one, and stopped: later trajectories
    are never read. *)
Theorem GetSubmapList_engine_calls now r :
  let e := map_builder_ (this r) in
  (∀ l r', GetSubmapList now r = Returns l r' →
           events (since r r') =
             flat_map visit_events (trajectory_ids e) ++ [CallNumTrajectoryBuilders]) ∧
  (∀ r', GetSubmapList now r = Aborts r' →
         ∃ good k rest,
           trajectory_ids e = good ++ k :: rest ∧
           forallb (lengths_agree e) good = true ∧ lengths_agree e k = false ∧
           events (since r r') =
             flat_map visit_events good ++ visit_events k ++ [Log FATAL "Check failed"]).
Proof.
  cbv zeta.
  pose proof (trajectory_loop_calls
                (Z.to_nat (num_trajectory_builders (map_builder_ (this r)))) 0
                {| header_stamp := now; header_frame_id := map_frame (options_ (this r));
                   trajectory := [] |} r) as Hloop.
  cbv zeta in Hloop. rewrite Z.sub_0_r in Hloop. specialize (Hloop ltac:(lia)).
  unfold GetSubmapList, trajectory_ids. run_monad. split.
  - intros l r' Hret. rewrite Hret in Hloop. destruct Hloop as (os & Htrace & Hev).
    unfold since. by rewrite Htrace, drop_app_length.
  - intros r' Hret. rewrite Hret in Hloop.
    destruct Hloop as (os & good & k & rest & Htrace & Hids & Hgood & Hk & Hev).
    exists good, k, rest. unfold since. by rewrite Htrace, drop_app_length.
Qed.

Lemma query_values_depend_on_bridge request response now r r' :
  this r' = this r →
  value_of (HandleSubmapQuery request response r') =
    value_of (HandleSubmapQuery request response r) ∧
  value_of (GetSubmapList now r') = value_of (GetSubmapList now r) ∧
  value_of (BuildOccupancyGrid r') = value_of (BuildOccupancyGrid r).
Proof.
  intros Hthis. repeat split.
  - unfold HandleSubmapQuery. run_monad. rewrite Hthis.
    destruct (SubmapToProto _ _ _) as [error proto].
    by destruct (decide (error ≠ "")).
  - pose proof (GetSubmapList_run now r) as [_ Hr].
    pose proof (GetSubmapList_run now r') as [_ Hr'].
    rewrite Hthis in Hr'.
    destruct (GetSubmapList now r) as [l ?|?|], (GetSubmapList now r') as [l' ?|?|];
      try done; simpl.
    + destruct Hr as [_ ->], Hr' as [_ ->]. done.
    + destruct Hr as [Hok _], Hr' as [Hbad _]. congruence.
    + destruct Hr as [Hbad _], Hr' as [Hok _]. congruence.
  - unfold BuildOccupancyGrid. run_monad. rewrite Hthis.
    by destruct (GetTrajectoryNodes _).
Qed.

(** X6: the three queries do not interfere: after any one of them returned,
    each of them gives the result it would have given before, whatever the
    request. *)
Theorem queries_do_not_interfere request response now r r1 :
  (∃ o, HandleSubmapQuery request response r = Returns o r1) ∨
  (∃ l, GetSubmapList now r = Returns l r1) ∨
  (∃ g, BuildOccupancyGrid r = Returns g r1) →
  ∀ request' response' now',
    value_of (HandleSubmapQuery request' response' r1) =
      value_of (HandleSubmapQuery request' response' r) ∧
    value_of (GetSubmapList now' r1) = value_of (GetSubmapList now' r) ∧
    value_of (BuildOccupancyGrid r1) = value_of (BuildOccupancyGrid r).
Proof.
  intros Hcall request' response' now'.
  apply query_values_depend_on_bridge.
  destruct Hcall as [[o Hcall]|[[l Hcall]|[g Hcall]]].
  - pose proof (HandleSubmapQuery_reads_only request response r) as Hro.
    rewrite Hcall in Hro. apply Hro.
  - pose proof (proj1 (GetSubmapList_run now r)) as Hro.
    rewrite Hcall in Hro. apply Hro.
  - pose proof (BuildOccupancyGrid_reads_only r) as Hro.
    rewrite Hcall in Hro. apply Hro.
Qed.

(** X7: [BuildOccupancyGrid] right after [HandleFinishTrajectory] agrees
    with the export: it returns the null pointer exactly when no assets were
    written, and otherwise the grid built from the very nodes and options
    that were handed to [WriteAssets]. *)
Theorem grid_after_finish_matches_export request r :
  ∃ r1 g r2,
    HandleFinishTrajectory request r = Returns true r1 ∧
    BuildOccupancyGrid r1 = Returns g r2 ∧
    (g = None ↔ exporter_invoked (events (since r r1)) = false) ∧
    (∀ nodes options stem,
        CallWriteAssets nodes options stem ∈ events (since r r1) →
        g = Some (occupancy_grid_BuildOccupancyGrid nodes options OccupancyGrid_default)).
Proof.
  destruct (GetTrajectoryNodes (map_builder_ (after_optimize (this r))))
    as [|n ns] eqn:Hnodes.
  - eexists _, None, _. split; [apply HandleFinishTrajectory_run|].
    rewrite since_app, exporter_invoked_finish, events_finish_observations, Hnodes.
    unfold BuildOccupancyGrid, handoff_events, export_events. run_monad.
    rewrite Hnodes. split; [reflexivity|]. split; [done|].
    intros nodes options stem0 Hin. set_solver.
  - eexists _, (Some _), _. split; [apply HandleFinishTrajectory_run|].
    rewrite since_app, exporter_invoked_finish, events_finish_observations, Hnodes.
    unfold BuildOccupancyGrid, handoff_events, export_events. run_monad.
    rewrite Hnodes. split; [reflexivity|]. split.
    + split; done.
    + intros nodes options stem0 Hin.
      assert (CallWriteAssets nodes options stem0 =
              CallWriteAssets (n :: ns) (options_ (this r)) (stem request)) as Heq
        by set_solver.
      by injection Heq as -> -> _.
Qed.

Section Lifetime.

Context (accepts_input : E → Z → bool) `{!MapBuilderContract accepts_input}.

(** X1: the constructor asks the engine for one trajectory with the sensor
    ids it was given, keeps the id, the ids and the options, and binds its
    [SensorBridge] to the builder of that trajectory.  On a new engine that
    keeps the contract the trajectory is number 0 and is the only open one:
    the bridge starts with its one session active. *)
Theorem constructor_starts_session options ids e0 :
  ∃ r, MapBuilderBridge_ctor options ids e0 = Returns tt r ∧
    events (trace r) =
      [CallAddTrajectoryBuilder ids (trajectory_id_ (this r));
       CallGetTrajectoryBuilder (trajectory_id_ (this r));
       StoreSensorBridge {| trajectory_builder := trajectory_id_ (this r) |}] ∧
    (trajectory_id_ (this r), map_builder_ (this r)) = AddTrajectoryBuilder ids e0 ∧
    options_ (this r) = options ∧
    expected_sensor_ids_ (this r) = ids ∧
    sensor_bridge_ (this r) = Some {| trajectory_builder := trajectory_id_ (this r) |} ∧
    (num_trajectory_builders e0 = 0 →
       trajectory_id_ (this r) = 0 ∧
       num_trajectory_builders (map_builder_ (this r)) = 1 ∧
       active_sessions accepts_input (this r) = [{| trajectory_builder := 0 |}] ∧
       sole_session accepts_input (this r)).
Proof.
  eexists. split; [apply ctor_run|]. cbv zeta. simpl.
  split; [done|]. split; [by destruct (AddTrajectoryBuilder ids e0)|].
  split; [done|]. split; [done|]. split; [done|].
  intros Hnew.
  destruct (reachable_invariant accepts_input e0 _ Hnew
              (reach_ctor e0 options ids _ (ctor_run options ids e0)))
    as [Hsole _].
  cbv zeta in Hsole. simpl in Hsole.
  assert ((AddTrajectoryBuilder ids e0).1 = 0) as Hid
    by (by rewrite add_returns_count).
  split; [done|]. split; [by rewrite add_count, Hnew|].
  split; [|exact Hsole].
  rewrite <- Hid. apply active_sessions_bound; [done|]. simpl.
  by apply Hsole.
Qed.

(** The current trajectory of a reachable bridge is the last one created. *)
Lemma current_trajectory_is_latest_aux e0 r :
  num_trajectory_builders e0 = 0 → reachable e0 r →
  trajectory_id_ (this r) = num_trajectory_builders (map_builder_ (this r)) - 1 ∧
  0 ≤ trajectory_id_ (this r).
Proof.
  intros Hnew Hreach.
  destruct (reachable_invariant accepts_input e0 r Hnew Hreach) as [[Hsb Hsole] Hcreated].
  destruct (reachable_lifecycle e0 r Hreach) as [_ Hpair].
  unfold trajectory_ids in Hcreated. rewrite Hcreated in Hpair.
  pose proof (accepts_valid (map_builder_ (this r)) (trajectory_id_ (this r))
                (proj2 (Hsole _) eq_refl)) as Hvalid.
  set (n := num_trajectory_builders (map_builder_ (this r))) in *.
  replace n with ((n - 1) + 1) in Hpair by lia.
  rewrite seqZ_app in Hpair by lia.
  change (seqZ (0 + (n - 1)) 1) with [0 + (n - 1)] in Hpair.
  apply app_inj_tail in Hpair as [Hfin Hid]. lia.
Qed.

(** X2: in every state a bridge reaches from a new engine that keeps the
    contract, the current trajectory is the one created last: its id is
    [num_trajectory_builders - 1], it is the engine's only open trajectory,
    the bridge's [SensorBridge] feeds it, and the number of trajectories
    finished so far equals its id. *)
Theorem current_trajectory_is_latest e0 r :
  num_trajectory_builders e0 = 0 → reachable e0 r →
  trajectory_id_ (this r) = num_trajectory_builders (map_builder_ (this r)) - 1 ∧
  sensor_bridge_ (this r) = Some {| trajectory_builder := trajectory_id_ (this r) |} ∧
  (∀ j, accepts_input (map_builder_ (this r)) j = true ↔ j = trajectory_id_ (this r)) ∧
  finished_handles (events (trace r)) = seqZ 0 (trajectory_id_ (this r)).
Proof.
  intros Hnew Hreach.
  destruct (reachable_invariant accepts_input e0 r Hnew Hreach) as [[Hsb Hsole] Hcreated].
  destruct (reachable_lifecycle e0 r Hreach) as [_ Hpair].
  unfold trajectory_ids in Hcreated. rewrite Hcreated in Hpair.
  pose proof (accepts_valid (map_builder_ (this r)) (trajectory_id_ (this r))
                (proj2 (Hsole _) eq_refl)) as Hvalid.
  set (n := num_trajectory_builders (map_builder_ (this r))) in *.
  replace n with ((n - 1) + 1) in Hpair by lia.
  rewrite seqZ_app in Hpair by lia. simpl in Hpair.
  change (seqZ (0 + (n - 1)) 1) with [0 + (n - 1)] in Hpair.
  apply app_inj_tail in Hpair as [Hfin Hid].
  rewrite Z.add_0_l in Hid.
  repeat split; try done.
  - by apply Hsole.
  - by intros ->; apply Hsole.
  - by rewrite Hfin, Hid.
Qed.

(** X8: finishing a trajectory adds exactly one group to the submap list,
    at the end, for the trajectory the handoff created: for a bridge reached
    from a new engine that keeps the contract, the list after
    [HandleFinishTrajectory] has one group more than the list before, and
    its last group is that of the new current trajectory. *)
Theorem finish_adds_one_group now now' request e0 r l r0 r1 l' r2 :
  num_trajectory_builders e0 = 0 → reachable e0 r →
  GetSubmapList now r = Returns l r0 →
  HandleFinishTrajectory request r = Returns true r1 →
  GetSubmapList now' r1 = Returns l' r2 →
  length (trajectory l') = S (length (trajectory l)) ∧
  trajectory l' !! length (trajectory l) =
    Some (expected_group (map_builder_ (this r1)) (trajectory_id_ (this r1))).
Proof.
  intros Hnew Hreach Hl Hfinish Hl'.
  pose proof (reach_HandleFinishTrajectory e0 request r true r1 Hreach Hfinish) as Hreach1.
  destruct (current_trajectory_is_latest_aux e0 r Hnew Hreach) as [Hid Hpos].
  destruct (current_trajectory_is_latest_aux e0 r1 Hnew Hreach1) as [Hid1 Hpos1].
  pose proof (GetSubmapList_run now r) as [_ Hrun]. rewrite Hl in Hrun.
  pose proof (GetSubmapList_run now' r1) as [_ Hrun1]. rewrite Hl' in Hrun1.
  destruct Hrun as [_ ->], Hrun1 as [_ ->]. simpl.
  rewrite HandleFinishTrajectory_run in Hfinish. injection Hfinish as Hr1.
  assert (num_trajectory_builders (map_builder_ (this r1)) =
          num_trajectory_builders (map_builder_ (this r)) + 1) as Hcount.
  { rewrite <- Hr1. unfold after_optimize, after_finish, after_add. simpl.
    by rewrite optimize_count, finish_count, add_count. }
  unfold trajectory_ids. rewrite !length_fmap, !length_seqZ. split; [lia|].
  rewrite list_lookup_fmap.
  rewrite (lookup_seqZ_lt 0) by lia. simpl. f_equal. f_equal. lia.
Qed.

End Lifetime.

End BridgeProperties.

(** * The reference engine keeps the contract *)

Module RefEngineFacts.
Import RefEngine.

Lemma lookup_trajectory_Some id e t :
  lookup_trajectory id e = Some t →
  0 ≤ id < Z.of_nat (length (trajectory_builders e)).
Proof.
  unfold lookup_trajectory. destruct (decide (0 ≤ id)); [|done].
  intros Hl%lookup_lt_Some. lia.
Qed.

Lemma lookup_trajectory_alter f p e j :
  0 ≤ p →
  (if decide (0 ≤ j) then alter f (Z.to_nat p) (trajectory_builders e) !! Z.to_nat j
   else None) =
  if decide (j = p) then f <$> lookup_trajectory j e else lookup_trajectory j e.
Proof.
  intros Hp. unfold lookup_trajectory.
  destruct (decide (0 ≤ j)) as [Hj|Hj].
  - destruct (decide (j = p)) as [->|Hne].
    + apply list_lookup_alter_eq.
    + apply list_lookup_alter_ne. lia.
  - destruct (decide (j = p)); [lia|done].
Qed.

#[global] Instance contract : MapBuilderContract accepts_input.
Proof.
  split.
  - done.
  - intros ids e. simpl. rewrite length_app. simpl. lia.
  - intros ids e. unfold accepts_input, lookup_trajectory. simpl.
    rewrite decide_True by lia. rewrite Nat2Z.id.
    by rewrite list_lookup_middle.
  - intros ids e j Hne. unfold accepts_input, lookup_trajectory. simpl in *.
    destruct (decide (0 ≤ j)); [|done].
    destruct (decide (Z.to_nat j < length (trajectory_builders e))%nat).
    + by rewrite lookup_app_l.
    + rewrite !lookup_ge_None_2; [done|lia|]. rewrite length_app. simpl. lia.
  - intros e j. unfold accepts_input.
    destruct (lookup_trajectory j e) eqn:Hl; [|done].
    intros _. by eapply lookup_trajectory_Some.
  - intros p e. unfold accepts_input, lookup_trajectory at 1. simpl.
    destruct (decide (0 ≤ p)) as [Hp|Hp].
    + rewrite list_lookup_alter_eq. by destruct (_ !! _).
    + done.
  - intros p e j Hne. unfold accepts_input, lookup_trajectory at 1. simpl.
    destruct (decide (0 ≤ p)) as [Hp|Hp]; [|done].
    rewrite lookup_trajectory_alter by done. by rewrite decide_False.
  - intros p e. simpl. destruct (decide (0 ≤ p)); by rewrite ?length_alter.
  - done.
  - done.
  - intros id d e j. unfold accepts_input at 1, lookup_trajectory at 1. simpl.
    destruct (decide (0 ≤ id)) as [Hid|Hid]; [|done]. simpl.
    rewrite lookup_trajectory_alter by done. unfold accepts_input.
    destruct (decide (j = id)); [|done].
    destruct (lookup_trajectory j e) as [[[] ? ?]|]; done.
  - intros id d e. simpl. destruct (decide (0 ≤ id)); [|done]. simpl.
    by rewrite length_alter.
Qed.

End RefEngineFacts.

(** * The scenario on the reference engine *)

Module Scenario.
Import RefEngine RefEngineFacts.

(** The four runs of the scenario are states the bridge can reach. *)
Lemma reachable_started : reachable fresh started.
Proof.
  apply (@reach_ctor env Engine map_builder fresh "map" {["scan"]}).
  vm_compute. reflexivity.
Qed.

Lemma reachable_scanned : reachable fresh scanned.
Proof.
  exact (@reach_ingest env Engine map_builder fresh started
           {| trajectory_builder := 0 |} 42 reachable_started eq_refl).
Qed.

Lemma reachable_finished_once : reachable fresh finished_once.
Proof.
  apply (reach_HandleFinishTrajectory fresh request_map1 scanned true);
    [exact reachable_scanned|vm_compute; reflexivity].
Qed.

Lemma reachable_finished_twice : reachable fresh finished_twice.
Proof.
  apply (reach_HandleFinishTrajectory fresh request_map2 finished_once true);
    [exact reachable_finished_once|vm_compute; reflexivity].
Qed.

(** After the first finish the optimizer's arrays fit: the listing returns. *)
Lemma listing_returns : ∃ l r', GetSubmapList list_time finished_once = Returns l r'.
Proof. eexists _, _. vm_compute. reflexivity. Qed.

(** The first finish of the scenario: trajectory 1 is created and bound
    before trajectory 0 is finished, one active session throughout. *)
Lemma handoff_keeps_one_session_witness :
  ∃ r' new rest,
    HandleFinishTrajectory request_map1 scanned = Returns true r' ∧
    events (since scanned r') =
      handoff_events (expected_sensor_ids_ (this scanned)) new ++
      CallFinishTrajectory (trajectory_id_ (this scanned)) :: rest ∧
    Forall (λ ev, ∀ ids id sb, ev ≠ CallAddTrajectoryBuilder ids id ∧
                               ev ≠ StoreSensorBridge sb ∧
                               ev ≠ CallFinishTrajectory id) rest ∧
    new ≠ trajectory_id_ (this scanned) ∧
    trajectory_id_ (this r') = new ∧
    sensor_bridge_ (this r') = Some {| trajectory_builder := new |} ∧
    length (active_sessions accepts_input (this scanned)) = 1%nat ∧
    Forall (λ ob, length (active_sessions accepts_input (obs_after ob)) = 1%nat)
           (since scanned r') ∧
    length (active_sessions accepts_input (this r')) = 1%nat ∧
    (sole_session accepts_input (this scanned) → sole_session accepts_input (this r')).
Proof.
  apply (handoff_keeps_one_session accepts_input request_map1 scanned);
    vm_compute; reflexivity.
Defined.

(** An optimizer that lost a transform makes the listing abort; on the
    scenario's engine it returns. *)
Lemma GetSubmapList_aborts_on_mismatch_witness :
  (∃ r', GetSubmapList list_time (bridge_on corrupt 1) = Aborts r' ∧
         last (events (trace r')) = Some (Log FATAL "Check failed")) ∧
  (∃ l r', GetSubmapList list_time finished_once = Returns l r').
Proof.
  split.
  - apply (proj1 (GetSubmapList_aborts_on_mismatch list_time (bridge_on corrupt 1)) 0).
    + change (0 ≤ 0 < 2). lia.
    + change (1%nat ≠ 2%nat). lia.
  - apply (proj2 (proj2 (GetSubmapList_aborts_on_mismatch list_time finished_once))).
    apply transforms_consistent_spec. vm_compute. reflexivity.
Defined.

(** The second finish of the scenario: trajectory 1 never got a scan and has
    no node, yet the asset writer runs, on the node of trajectory 0.  So the
    export does not depend on the nodes of the trajectory being finished. *)
Lemma finish_exports_without_old_nodes :
  reachable fresh finished_once ∧
  HandleFinishTrajectory request_map2 finished_once = Returns true finished_twice ∧
  trajectory_id_ (this finished_once) = 1 ∧
  nodes_of 1 (map_builder_ (this finished_twice)) = [] ∧
  exporter_invoked (events (since finished_once finished_twice)) = true ∧
  ¬ (exporter_invoked (events (since finished_once finished_twice)) = true ↔
     nodes_of (trajectory_id_ (this finished_once))
              (map_builder_ (this finished_twice)) ≠ []).
Proof.
  split; [exact reachable_finished_once|].
  assert (exporter_invoked (events (since finished_once finished_twice)) = true)
    as Hexported by (vm_compute; reflexivity).
  assert (nodes_of 1 (map_builder_ (this finished_twice)) = [])
    as Hnone by (vm_compute; reflexivity).
  assert (trajectory_id_ (this finished_once) = 1) as Hold by (vm_compute; reflexivity).
  split; [vm_compute; reflexivity|]. split; [exact Hold|]. split; [exact Hnone|].
  split; [exact Hexported|].
  rewrite Hold, Hnone. intros [Hex _]. by apply Hex.
Qed.

(** Finishing right after construction: no node, no export, a warning. *)
Lemma HandleFinishTrajectory_exports_iff_nodes_witness :
  ∃ r', HandleFinishTrajectory request_map1 started = Returns true r' ∧
    map_builder_ (this r') =
      RunFinalOptimization
        (FinishTrajectory 0
           (AddTrajectoryBuilder (expected_sensor_ids_ (this started))
                                 (map_builder_ (this started))).2) ∧
    events (since started r') =
      handoff_events (expected_sensor_ids_ (this started)) 1 ++
      [CallFinishTrajectory 0; CallRunFinalOptimization; CallGetTrajectoryNodes;
       Log WARNING "No data collected and no assets will be written.";
       Log INFO "New trajectory started."] ∧
    exporter_invoked (events (since started r')) = false ∧
    log_lines (events (since started r')) =
      [(INFO, "Finishing trajectory...");
       (WARNING, "No data collected and no assets will be written.");
       (INFO, "New trajectory started.")] ∧
    trajectory_id_ (this r') = 1 ∧
    active_sessions accepts_input (this r') = [{| trajectory_builder := 1 |}] ∧
    accepts_input (map_builder_ (this r')) 1 = true ∧
    accepts_input (map_builder_ (this r')) 0 = false.
Proof.
  destruct (HandleFinishTrajectory_exports_iff_nodes accepts_input request_map1 started)
    as (r' & Hret & Hgraph & Hev & Hiff & _ & Hlog & Hid & _ & Hactive).
  destruct Hactive as (Hone & Hnew & Hold); [vm_compute; reflexivity..|].
  exists r'. split; [exact Hret|]. split; [exact Hgraph|]. split; [exact Hev|].
  split.
  { destruct (exporter_invoked (events (since started r'))); [|reflexivity].
    exfalso. by apply (proj1 Hiff). }
  split; [apply Hlog; vm_compute; reflexivity|].
  split; [exact Hid|]. split; [exact Hone|]. split; [exact Hnew|exact Hold].
Defined.

(** A query for submap 0 of the finished trajectory 0 succeeds; the index
    after the last fails with the engine's message logged and the response
    untouched. *)
Lemma HandleSubmapQuery_result_witness :
  (∃ r', HandleSubmapQuery query_first blank_response finished_once =
           Returns (true, {| submap_version := 42; cells := [x01; x02]; width := 2;
                             height := 1; resolution := 5 : Real;
                             slice_pose := 1000 : Pose |}) r') ∧
  (∃ r', HandleSubmapQuery query_beyond blank_response finished_once =
           Returns (false, blank_response) r' ∧
         events (since finished_once r') =
           [CallSubmapToProto 0 1; Log ERROR "Requested submap is out of range."]).
Proof.
  split.
  - destruct (HandleSubmapQuery_result query_first blank_response finished_once)
      as (r' & _ & Hok & _).
    exists r'. apply Hok. vm_compute. reflexivity.
  - destruct (HandleSubmapQuery_result query_beyond blank_response finished_once)
      as (r' & _ & _ & Hbad).
    exists r'. apply Hbad. vm_compute. discriminate.
Defined.

(** After two finishes there are three groups, for handles 0, 1 and 2. *)
Lemma GetSubmapList_groups_witness :
  ∃ l r', GetSubmapList list_time finished_twice = Returns l r' ∧
    created_handles (events (trace finished_twice)) = [0; 1; 2] ∧
    trajectory l =
      [ {| submap := [{| entry_submap_version := 42; entry_pose := 1420 : Pose |}] |};
        {| submap := [] |}; {| submap := [] |} ].
Proof.
  destruct (GetSubmapList_groups accepts_input list_time fresh finished_twice)
    as (l & r' & Hret & Hhandles & Hgroups & _).
  - vm_compute. reflexivity.
  - exact reachable_finished_twice.
  - vm_compute. reflexivity.
  - exists l, r'. split; [exact Hret|]. split; [rewrite Hhandles; vm_compute; reflexivity|].
    rewrite Hgroups, Hhandles. vm_compute. reflexivity.
Defined.


(** No grid on the new bridge, a grid once a scan made a node. *)
Lemma BuildOccupancyGrid_result_witness :
  (∃ r', BuildOccupancyGrid started = Returns None r' ∧
         events (since started r') = [CallGetTrajectoryNodes]) ∧
  (∃ r', BuildOccupancyGrid scanned = Returns (Some ([42] : OccupancyGrid)) r').
Proof.
  split.
  - destruct (BuildOccupancyGrid_result started) as (r' & _ & _ & Hnone & _).
    exists r'. apply Hnone. vm_compute. reflexivity.
  - destruct (BuildOccupancyGrid_result scanned) as (r' & _ & _ & _ & Hsome).
    exists r'. apply Hsome. vm_compute. discriminate.
Defined.

(** Tearing down after the first finish closes trajectory 1, the last open one. *)
Lemma destructor_finishes_current_witness :
  ∃ r', MapBuilderBridge_dtor finished_once = Returns tt r' ∧
    events (since finished_once r') = [CallFinishTrajectory 1] ∧
    active_sessions accepts_input (this finished_once) = [{| trajectory_builder := 1 |}] ∧
    ∀ j, accepts_input (map_builder_ (this r')) j = false.
Proof.
  destruct (destructor_finishes_current accepts_input fresh finished_once)
    as (r' & Hret & Hev & _ & Hreach).
  destruct Hreach as [Hone Hnone];
    [vm_compute; reflexivity|exact reachable_finished_once|].
  exists r'. split; [exact Hret|]. split; [exact Hev|]. split; [exact Hone|exact Hnone].
Defined.

End Scenario.

(** * The scenario, continued *)

Module ScenarioMore.
Import RefEngine RefEngineFacts Scenario.

Lemma listing_scanned_returns : ∃ l r', GetSubmapList list_time scanned = Returns l r'.
Proof. eexists _, _. vm_compute. reflexivity. Qed.

Lemma listing_corrupt_aborts : ∃ r', GetSubmapList list_time (bridge_on corrupt 1) = Aborts r'.
Proof. eexists. vm_compute. reflexivity. Qed.

Lemma listed_once_returns : ∃ l, GetSubmapList list_time finished_once = Returns l listed_once.
Proof. eexists. vm_compute. reflexivity. Qed.

(** Construction on the new engine: trajectory 0, one active session. *)
Lemma constructor_starts_session_witness :
  ∃ r, MapBuilderBridge_ctor ("map" : NodeOptions) {["scan"]} fresh = Returns tt r ∧
       trajectory_id_ (this r) = 0 ∧
       num_trajectory_builders (map_builder_ (this r)) = 1 ∧
       active_sessions accepts_input (this r) = [{| trajectory_builder := 0 |}] ∧
       sole_session accepts_input (this r).
Proof.
  destruct (@constructor_starts_session env Engine map_builder accepts_input contract
              "map" {["scan"]} fresh)
    as (r & Hret & _ & _ & _ & _ & _ & Hnew).
  exists r. split; [exact Hret|]. apply Hnew. vm_compute. reflexivity.
Defined.

(** After two finishes the current trajectory is number 2 of 3. *)
Lemma current_trajectory_is_latest_witness :
  trajectory_id_ (this finished_twice) =
    num_trajectory_builders (map_builder_ (this finished_twice)) - 1 ∧
  sensor_bridge_ (this finished_twice) =
    Some {| trajectory_builder := trajectory_id_ (this finished_twice) |} ∧
  (∀ j, accepts_input (map_builder_ (this finished_twice)) j = true ↔
        j = trajectory_id_ (this finished_twice)) ∧
  finished_handles (events (trace finished_twice)) =
    seqZ 0 (trajectory_id_ (this finished_twice)).
Proof.
  apply (current_trajectory_is_latest accepts_input fresh finished_twice).
  - vm_compute. reflexivity.
  - exact reachable_finished_twice.
Defined.

(** Trajectories 0 and 1 are finished by the two handoffs, trajectory 2 by
    the destructor. *)
Lemma every_trajectory_finished_once_witness :
  finished_handles (events (trace finished_twice)) ++ [trajectory_id_ (this finished_twice)] =
    created_handles (events (trace finished_twice)) ∧
  ∃ r', MapBuilderBridge_dtor finished_twice = Returns tt r' ∧
        finished_handles (events (trace r')) = created_handles (events (trace r')).
Proof.
  exact (every_trajectory_finished_once fresh finished_twice reachable_finished_twice).
Defined.

(** All three trajectories of the scenario were created with the sensor ids
    of the constructor, both exports used its options. *)
Lemma construction_arguments_kept_witness :
  (∀ ids id, CallAddTrajectoryBuilder ids id ∈ events (trace finished_twice) →
             ids = expected_sensor_ids_ (this finished_twice)) ∧
  (∀ nodes options stem,
      CallWriteAssets nodes options stem ∈ events (trace finished_twice) →
      options = options_ (this finished_twice)).
Proof.
  exact (construction_arguments_kept fresh finished_twice reachable_finished_twice).
Defined.

(** The listing of the scenario visits trajectories 0 and 1; on the engine
    that lost a transform it stops at trajectory 0 and never reads
    trajectory 1. *)
Lemma GetSubmapList_engine_calls_witness :
  (∃ l r', GetSubmapList list_time finished_once = Returns l r' ∧
           events (since finished_once r') =
             visit_events 0 ++ visit_events 1 ++ [CallNumTrajectoryBuilders]) ∧
  (∃ r' good k rest,
      GetSubmapList list_time (bridge_on corrupt 1) = Aborts r' ∧
      [0; 1] = good ++ k :: rest ∧
      lengths_agree corrupt k = false ∧
      events (since (bridge_on corrupt 1) r') =
        flat_map visit_events good ++ visit_events k ++ [Log FATAL "Check failed"]).
Proof.
  split.
  - destruct listing_returns as (l & r' & Hret). exists l, r'. split; [exact Hret|].
    exact (proj1 (GetSubmapList_engine_calls list_time finished_once) l r' Hret).
  - destruct listing_corrupt_aborts as (r' & Hret).
    destruct (proj2 (GetSubmapList_engine_calls list_time (bridge_on corrupt 1)) r' Hret)
      as (good & k & rest & Hids & _ & Hk & Hev).
    exists r', good, k, rest. split; [exact Hret|]. split; [exact Hids|].
    split; [exact Hk|exact Hev].
Defined.

(** After a listing, a query for submap 0 of trajectory 0, a second listing
    and the grid are what they were before the listing. *)
Lemma queries_do_not_interfere_witness :
  value_of (HandleSubmapQuery query_first blank_response listed_once) =
    value_of (HandleSubmapQuery query_first blank_response finished_once) ∧
  value_of (GetSubmapList list_time listed_once) =
    value_of (GetSubmapList list_time finished_once) ∧
  value_of (BuildOccupancyGrid listed_once) = value_of (BuildOccupancyGrid finished_once).
Proof.
  apply (queries_do_not_interfere query_first blank_response list_time
           finished_once listed_once).
  right. left. exact listed_once_returns.
Defined.

(** The first finish of the scenario exports the node of the scan; the grid
    built next is made of that node. *)
Lemma grid_after_finish_matches_export_witness :
  ∃ r1 g r2,
    HandleFinishTrajectory request_map1 scanned = Returns true r1 ∧
    BuildOccupancyGrid r1 = Returns g r2 ∧
    (g = None ↔ exporter_invoked (events (since scanned r1)) = false) ∧
    (∀ nodes options stem,
        CallWriteAssets nodes options stem ∈ events (since scanned r1) →
        g = Some (occupancy_grid_BuildOccupancyGrid nodes options OccupancyGrid_default)).
Proof. exact (grid_after_finish_matches_export request_map1 scanned). Defined.

(** One group before the first finish of the scenario, two after. *)
Lemma finish_adds_one_group_witness :
  ∃ l r0 l' r2,
    GetSubmapList list_time scanned = Returns l r0 ∧
    GetSubmapList list_time finished_once = Returns l' r2 ∧
    length (trajectory l') = S (length (trajectory l)) ∧
    trajectory l' !! length (trajectory l) =
      Some (expected_group (map_builder_ (this finished_once))
                           (trajectory_id_ (this finished_once))).
Proof.
  destruct listing_scanned_returns as (l & r0 & Hl).
  destruct listing_returns as (l' & r2 & Hl').
  exists l, r0, l', r2. split; [exact Hl|]. split; [exact Hl'|].
  apply (finish_adds_one_group accepts_input list_time list_time request_map1
           fresh scanned l r0 finished_once l' r2).
  - vm_compute. reflexivity.
  - exact reachable_scanned.
  - exact Hl.
  - vm_compute. reflexivity.
  - exact Hl'.
Defined.

End ScenarioMore.
